(** * Enrichment-and-reconciliation engine of the bibliometric pipeline

    A shallow embedding of [Strict_dataset_creator.py]: identifier
    normalisation, the reference-table loaders, the memoised fetcher, the
    quartile resolver, the record enricher and the corpus filter, followed
    by the properties the design document states about them.

    Modelling conventions.
    - A Python [str] is a [string] of 8-bit characters.  White space is the
      set [str.strip] removes among the first 256 code points.  The case
      mappings are those of Python on ASCII text ([PyStr.is_ascii]); Python
      also maps letters beyond ASCII, which the model keeps as they are, so
      statements about letter case are made for ASCII text.
    - A pandas cell or an arbitrary Python argument is a [cell]: [None],
      a float NaN, a [str], or another value given by its [str()]
      rendering and its truth value.
    - A [dict] used as a map is a [gmap]; a [set] is a [gset].  The registry
      file is kept by column, a ranking table as the list of its rows, a
      row being the map from its labels to its values (labels are distinct,
      as [read_csv] delivers them; a table whose stripped headers collide
      is outside the model).
    - A response body is told apart as far as the code does: null, another
      value without truth, an object, another value with truth.
    - An exception that leaves a function is a [failure] on the left of a
      sum.  Counts lie within the range where the conversions of a column
      to 64-bit floats and integers are exact.
    - A loop that returns from its body is [first_some]. *)

From Stdlib Require Import Ascii String ZArith.
From stdpp Require Import base option list gmap sets strings.

Local Open Scope string_scope.
Local Open Scope list_scope.

(** ** Python string primitives *)

Module PyStr.

(** [str.isspace] on one character (code points below 256). *)
Definition is_space (c : ascii) : bool :=
  let n := nat_of_ascii c in
  (Nat.leb 9 n && Nat.leb n 13) || (Nat.leb 28 n && Nat.leb n 32)
  || Nat.eqb n 133 || Nat.eqb n 160.

Definition upper_char (c : ascii) : ascii :=
  let n := nat_of_ascii c in
  if Nat.leb 97 n && Nat.leb n 122 then ascii_of_nat (n - 32) else c.

Definition lower_char (c : ascii) : ascii :=
  let n := nat_of_ascii c in
  if Nat.leb 65 n && Nat.leb n 90 then ascii_of_nat (n + 32) else c.

Fixpoint map_chars (f : ascii -> ascii) (s : string) : string :=
  match s with
  | EmptyString => EmptyString
  | String c s' => String (f c) (map_chars f s')
  end.

(** [s.upper()] and [s.lower()] on ASCII text: the letters a-z and A-Z are
    mapped, every other character is kept. *)
Definition upper : string -> string := map_chars upper_char.
Definition lower : string -> string := map_chars lower_char.

(** Text made of characters below 128. *)
Fixpoint is_ascii (s : string) : bool :=
  match s with
  | EmptyString => true
  | String c s' => Nat.ltb (nat_of_ascii c) 128 && is_ascii s'
  end.

(** [s.lstrip()], [s.rstrip()], [s.strip()] *)
Fixpoint lstrip (s : string) : string :=
  match s with
  | EmptyString => EmptyString
  | String c s' => if is_space c then lstrip s' else s
  end.

Fixpoint rstrip (s : string) : string :=
  match s with
  | EmptyString => EmptyString
  | String c s' =>
      match rstrip s' with
      | EmptyString => if is_space c then EmptyString else String c EmptyString
      | r => String c r
      end
  end.

Definition strip (s : string) : string := rstrip (lstrip s).

(** [s.replace(sub, "")] for a non-empty [sub]: occurrences are removed
    from left to right, without overlap.  [skip] counts the characters of
    the occurrence under deletion that are still to be dropped. *)
Fixpoint remove_go (sub : string) (skip : nat) (s : string) : string :=
  match s with
  | EmptyString => EmptyString
  | String c s' =>
      match skip with
      | S k => remove_go sub k s'
      | O =>
          if String.prefix sub s
          then remove_go sub (String.length sub - 1) s'
          else String c (remove_go sub 0 s')
      end
  end.

Definition remove (sub s : string) : string := remove_go sub 0 s.

(** [s.split(sep)] for a one-character separator. *)
Fixpoint split (sep : ascii) (s : string) : list string :=
  match s with
  | EmptyString => [EmptyString]
  | String c s' =>
      let r := split sep s' in
      if Ascii.eqb c sep then EmptyString :: r
      else match r with
           | h :: t => String c h :: t
           | [] => [String c EmptyString]
           end
  end.

(** [sep.join(l)] *)
Fixpoint join (sep : string) (l : list string) : string :=
  match l with
  | [] => EmptyString
  | [x] => x
  | x :: l' => x +:+ sep +:+ join sep l'
  end.

(** [sub in s] *)
Fixpoint contains (sub s : string) : bool :=
  String.prefix sub s ||
  match s with
  | EmptyString => false
  | String _ s' => contains sub s'
  end.

(** Truth value of a string: non-empty. *)
Definition nonempty (s : string) : bool :=
  match s with EmptyString => false | _ => true end.

(** No character of [s] is a hyphen. *)
Fixpoint hyphen_free (s : string) : bool :=
  match s with
  | EmptyString => true
  | String c s' => negb (Ascii.eqb c "-"%char) && hyphen_free s'
  end.

(** A string that does not begin with white space. *)
Definition clean_head (s : string) : Prop :=
  match s with
  | EmptyString => True
  | String c _ => is_space c = false
  end.

End PyStr.

(** ** Cells and identifier normalisation *)

(** A value as the code receives it from pandas or from a caller. *)
Inductive cell : Type :=
| CNone                 (* None *)
| CNaN                  (* float('nan'), pandas' missing value *)
| CStr (s : string)     (* a str *)
| COther (rendering : string) (truth : bool).
                        (* another value x: str(x) and bool(x) *)

(** [pd.isna] / [pd.notna] on a scalar. *)
Definition isna (x : cell) : bool :=
  match x with
  | CNone | CNaN => true
  | CStr _ | COther _ _ => false
  end.

(** [str(x)] of a value that is not missing; [x.dropna().astype(str)] seen
    on one cell. *)
Definition cell_str (x : cell) : option string :=
  match x with
  | CNone | CNaN => None
  | CStr s => Some s
  | COther s _ => Some s
  end.

(** Truth value of a cell: [None] and the empty string are false, a NaN
    float is true, another value says which it is. *)
Definition truthy (x : cell) : bool :=
  match x with
  | CNone => false
  | CNaN => true
  | CStr s => PyStr.nonempty s
  | COther _ truth => truth
  end.

Definition normalize_openalex_id (x : cell) : string :=
  match x with
  | CNone | CNaN => ""
  | CStr s | COther s _ => PyStr.strip (PyStr.remove "https://openalex.org/" s)
  end.

Definition normalize_issn (x : cell) : string :=
  match x with
  | CNone | CNaN => ""
  | CStr s | COther s _ => PyStr.upper (PyStr.strip (PyStr.remove "-" s))
  end.

(** ** Control flow *)

(** A [for] loop whose body may [return]: the first iteration that
    returns decides, otherwise the loop falls through. *)
Fixpoint first_some {A B : Type} (f : A -> option B) (l : list A) : option B :=
  match l with
  | [] => None
  | x :: l' =>
      match f x with
      | Some b => Some b
      | None => first_some f l'
      end
  end.

(** [a or b] on optional strings and integers. *)
Definition or_str (a b : option string) : option string :=
  match a with
  | Some s => if PyStr.nonempty s then a else b
  | None => b
  end.

Definition or_int (a b : option Z) : option Z :=
  match a with
  | Some z => if Z.eqb z 0 then b else a
  | None => b
  end.

(** ** Tables *)

(** Lookup by label, first hit. *)
Fixpoint assoc {V : Type} (k : string) (l : list (string * V)) : option V :=
  match l with
  | [] => None
  | (k', v) :: l' => if String.eqb k' k then Some v else assoc k l'
  end.

(** The registry file after [pd.read_csv]: absent, unreadable, or a frame
    held by column. *)
Inductive csv_file : Type :=
| FileMissing
| FileUnreadable
| FileFrame (df : list (string * list cell)).

(** One row of a ranking table: the value under each label of
    [row.index]. *)
Abbreviation row := (gmap string cell).

(** [c.lower() == "issn" or "issn" in c.lower()] *)
Definition issn_column (c : string) : bool :=
  String.eqb (PyStr.lower c) "issn" || PyStr.contains "issn" (PyStr.lower c).

Definition quartile_labels : list string := ["Q1"; "Q2"; "Q3"; "Q4"].

Definition quartile_columns : list string :=
  ["SJR Quartile"; "SJR quartile"; "Quartile"; "sjr quartile"; "SJR"].

(** [q in labels] *)
Definition isin (q : string) (labels : list string) : bool :=
  existsb (String.eqb q) labels.

(** ** The creator: reference tables, fetcher, enricher, filter *)

(** The columns the registry loader reads. *)
Definition scopus_columns : list string := ["ISSN"; "EISSN"; "Issn"; "issn"].

(** Inner loop of [load_scopus_sources] over one column. *)
Definition add_column_issns (vals : list cell) (issn_set : gset string) : gset string :=
  foldl (fun acc val =>
           match cell_str val with
           | None => acc                         (* dropna() *)
           | Some v =>
               let clean := normalize_issn (CStr v) in
               if Nat.eqb (String.length clean) 8 then {[ clean ]} ∪ acc else acc
           end) issn_set vals.

Definition load_scopus_sources (scopus_file : csv_file) : gset string :=
  match scopus_file with
  | FileMissing => ∅
  | FileUnreadable => ∅
  | FileFrame df =>
      foldl (fun issn_set col =>
               match assoc col df with
               | Some vals => add_column_issns vals issn_set
               | None => issn_set
               end) ∅ scopus_columns
  end.

(** The values [issn_values] gathered for one row. *)
Definition issn_col_candidates (r : row) : list string :=
  filter (fun c => issn_column c = true) (map fst (map_to_list r)).

Definition issn_values (r : row) : list string :=
  omap (fun c => r !! c ≫= cell_str) (issn_col_candidates r).

(** The loop over [qcol]: first candidate column that holds a label. *)
Definition row_quartile (r : row) : option string :=
  first_some (fun qcol =>
                match r !! qcol ≫= cell_str with
                | Some v =>
                    let q := PyStr.strip v in
                    if isin q quartile_labels then Some q else None
                | None => None
                end) quartile_columns.

(** The body of the loop over rows, for one row. *)
Definition scan_row (clean_target : string) (r : row) : option string :=
  first_some (fun issn_raw =>
    first_some (fun candidate =>
                  if String.eqb (normalize_issn (CStr candidate)) clean_target
                  then row_quartile r
                  else None)
               (map PyStr.strip (PyStr.split "," issn_raw)))
    (issn_values r).

Definition get_scimago_quartile (scimago_data : gmap Z (list row))
    (source_issn : cell) (publication_year : Z) : option string :=
  if negb (truthy source_issn) then None
  else match scimago_data !! publication_year with
       | None => None
       | Some df_year =>
           let clean_target := normalize_issn source_issn in
           if String.eqb clean_target "" then None
           else first_some (scan_row clean_target) df_year
       end.

Definition is_scopus_indexed (scopus_sources : gset string)
    (source_issn_list : list cell) : bool :=
  if bool_decide (scopus_sources = ∅) then false
  else match source_issn_list with
       | [] => false
       | _ => existsb (fun issn => bool_decide (normalize_issn issn ∈ scopus_sources))
                      source_issn_list
       end.

(** ** External documents and the memoised fetcher *)

(** The [issn] field of a venue: null, a list, or one value (rendered by
    [str()]). *)
Inductive issn_field : Type :=
| IssnNull
| IssnList (l : list cell)
| IssnScalar (s : string).

(** [primary_location.source] of a document. *)
Record venue : Type := {
  display_name : option string;
  venue_type : option string;
  issn_l : option string;
  issn : issn_field
}.

(** What the enricher reads from a document: the value of each
    [work.get(...)] it evaluates, defaults applied; [w_primary_source] is
    [None] for the empty dict, [concepts] and [topics] hold the
    [display_name] of each entry. *)
Record work : Type := {
  w_doi : option string;
  w_title : option string;
  w_abstract : option string;
  w_publication_year : option Z;
  w_publication_date : option string;
  w_type : option string;
  w_language : option string;
  w_cited_by_count : option Z;
  w_is_oa : option bool;
  w_oa_status : option string;
  w_primary_source : option venue;
  w_concepts : list (option string);
  w_topics : list (option string)
}.

(** A key of a JSON object: missing, null, or holding a value. *)
Inductive field (A : Type) : Type :=
| Absent
| Null
| Present (a : A).

Arguments Absent {A}.
Arguments Null {A}.
Arguments Present {A} a.

(** [d.get(key, default)] *)
Definition get_default {A : Type} (f : field A) (default : A) : option A :=
  match f with
  | Absent => Some default
  | Null => None
  | Present a => Some a
  end.

Record open_access : Type := {
  is_oa : field bool;
  oa_status : field string
}.

Record location : Type := {
  source : option venue
}.

(** A document of the external source: a non-empty JSON object in the
    shape of the interface.  The keys whose value the enricher
    dereferences may be missing or null. *)
Record document : Type := {
  d_doi : option string;
  d_title : option string;
  d_abstract : option string;
  d_publication_year : option Z;
  d_publication_date : option string;
  d_type : option string;
  d_language : option string;
  d_cited_by_count : field Z;
  d_open_access : field open_access;
  d_primary_location : field location;
  d_concepts : field (list (option string));
  d_topics : field (list (option string))
}.

(** A parsed response body, as far as the creator tells bodies apart. *)
Inductive body : Type :=
| BNull                     (* null: Python's None *)
| BFalsy                    (* another value without truth: {}, [], "", 0 *)
| BOther                    (* a value with truth that is not an object *)
| BDocument (d : document). (* a non-empty object *)

(** [bool(work)] *)
Definition body_truth (b : body) : bool :=
  match b with
  | BNull | BFalsy => false
  | BOther | BDocument _ => true
  end.

(** The exceptions that leave the enricher. *)
Inductive failure : Type :=
| AttributeError
| TypeError.

(** The reads the enricher makes of a document, in the order in which it
    makes them: [primary_location] (line 238), [open_access] (line 264),
    [concepts] and [topics] (lines 278-287).  [None.get] raises
    [AttributeError], iterating over [None] raises [TypeError]. *)
Definition read_document (d : document) : failure + work :=
  match d_primary_location d with
  | Null => inl AttributeError
  | Absent | Present _ =>
      match d_open_access d with
      | Null => inl AttributeError
      | Absent | Present _ =>
          match d_concepts d with
          | Null => inl TypeError
          | Absent | Present _ =>
              match d_topics d with
              | Null => inl TypeError
              | Absent | Present _ =>
                  inr {| w_doi := d_doi d;
                         w_title := d_title d;
                         w_abstract := d_abstract d;
                         w_publication_year := d_publication_year d;
                         w_publication_date := d_publication_date d;
                         w_type := d_type d;
                         w_language := d_language d;
                         w_cited_by_count := get_default (d_cited_by_count d) 0%Z;
                         w_is_oa :=
                           match d_open_access d with
                           | Present oa => get_default (is_oa oa) false
                           | _ => Some false
                           end;
                         w_oa_status :=
                           match d_open_access d with
                           | Present oa => get_default (oa_status oa) ""
                           | _ => Some ""
                           end;
                         w_primary_source :=
                           match d_primary_location d with
                           | Present loc => source loc
                           | _ => None
                           end;
                         w_concepts :=
                           match d_concepts d with
                           | Present l => l
                           | _ => []
                           end;
                         w_topics :=
                           match d_topics d with
                           | Present l => l
                           | _ => []
                           end |}
              end
          end
      end
  end.

(** What one [requests.get] yields: a response with its status and, when
    the body parses as JSON, the parsed body; or an exception. *)
Inductive response : Type :=
| Http (status_code : Z) (json : option body)
| TransportError.

(** The creator's mutable part: the memo table, and the log of requests
    sent so far (one entry per contact with the source). *)
Record fetcher : Type := {
  openalex_cache : gmap string body;
  contacts : list string
}.

Section Fetcher.

(** The external source: the answer to the [n]-th request, for an
    identifier. *)
Variable api : nat -> string -> response.

(** The value returned is the parsed body, [BNull] standing for the
    [None] of every other exit. *)
Definition get_work_details_single (st : fetcher) (work_id_clean : string)
    : body * fetcher :=
  if negb (PyStr.nonempty work_id_clean) then (BNull, st)
  else match openalex_cache st !! work_id_clean with
       | Some data => (data, st)
       | None =>
           let r := api (length (contacts st)) work_id_clean in
           let log := contacts st ++ [work_id_clean] in
           match r with
           | Http 200 (Some data) =>
               (data,
                {| openalex_cache := <[work_id_clean := data]> (openalex_cache st);
                   contacts := log |})
           | _ => (BNull, {| openalex_cache := openalex_cache st; contacts := log |})
           end
       end.

(** The fetch loop of [enhance_all_dataset]: [works_details] and the
    fetcher afterwards. *)
Fixpoint fetch_all (st : fetcher) (work_ids : list string)
    : list (string * body) * fetcher :=
  match work_ids with
  | [] => ([], st)
  | wid :: rest =>
      let '(detail, st1) := get_work_details_single st wid in
      let '(details, st2) := fetch_all st1 rest in
      ((wid, detail) :: details, st2)
  end.

End Fetcher.

(** Whether a call reached the external source. *)
Definition contacted (before after : fetcher) : bool :=
  negb (Nat.eqb (length (contacts after)) (length (contacts before))).

(** ** Raw and enriched records *)

(** A row of the collected table.  The columns read with a default other
    than [None] may be missing from the table ([Absent]), hold a missing
    value ([Null]) or a value. *)
Record raw_record : Type := {
  work_id : cell;
  publication_year : option Z;
  publication_date : option string;
  type_ : option string;
  language : option string;
  cited_by_count : field Z;
  open_access_is_oa : field bool;
  open_access_oa_status : field string;
  multi_institution : field bool;
  multi_country : field bool;
  authors_count : field Z;
  institutions_count : field Z
}.

Record enriched : Type := {
  e_work_id : cell;
  e_doi : option string;
  e_title : option string;
  e_abstract : option string;
  e_publication_year : option Z;
  e_publication_date : option string;
  e_type : option string;
  e_language : option string;
  e_cited_by_count : option Z;
  e_open_access_is_oa : option bool;
  e_open_access_oa_status : option string;
  e_source_name : option string;
  e_source_type : option string;
  e_source_issn_l : option string;
  e_source_issn : list string;
  e_multi_institution : option bool;
  e_multi_country : option bool;
  e_authors_count : option Z;
  e_institutions_count : option Z;
  e_concepts_list : string;
  e_venue_issn_list : string;
  e_is_scopus_indexed : bool;
  e_scimago_quartile : option string
}.

(** [df_all[df_all["work_id_clean"] == wid]] followed by [.iloc[0]]. *)
Definition original_row (df_all : list raw_record) (wid : string) : option raw_record :=
  head (filter (fun r => normalize_openalex_id (work_id r) = wid) df_all).

(** The row built when the fetch gave nothing. *)
Definition fallback_row (orig : raw_record) : enriched :=
  {| e_work_id := work_id orig;
     e_doi := None;
     e_title := None;
     e_abstract := None;
     e_publication_year := publication_year orig;
     e_publication_date := publication_date orig;
     e_type := type_ orig;
     e_language := language orig;
     e_cited_by_count := get_default (cited_by_count orig) 0%Z;
     e_open_access_is_oa := get_default (open_access_is_oa orig) false;
     e_open_access_oa_status := get_default (open_access_oa_status orig) "";
     e_source_name := None;
     e_source_type := None;
     e_source_issn_l := None;
     e_source_issn := [];
     e_multi_institution := get_default (multi_institution orig) false;
     e_multi_country := get_default (multi_country orig) false;
     e_authors_count := get_default (authors_count orig) 0%Z;
     e_institutions_count := get_default (institutions_count orig) 0%Z;
     e_concepts_list := "";
     e_venue_issn_list := "";
     e_is_scopus_indexed := false;
     e_scimago_quartile := None |}.

(** The identifiers collected from the venue before normalisation. *)
Definition raw_issn_list (primary_source : option venue) : list cell :=
  match primary_source with
  | None => []
  | Some src =>
      (match issn_l src with
       | Some s => if PyStr.nonempty s then [CStr s] else []
       | None => []
       end)
      ++
      (match issn src with
       | IssnNull => []
       | IssnList l => l
       | IssnScalar s =>
           map CStr (filter (fun t => PyStr.nonempty t = true)
                            (map PyStr.strip (PyStr.split "," s)))
       end)
  end.

(** [[c.get("display_name") for c in ... if c.get("display_name")]] *)
Definition display_names (entries : list (option string)) : list string :=
  omap (fun d => match d with
                 | Some s => if PyStr.nonempty s then Some s else None
                 | None => None
                 end) entries.

Definition all_concepts (w : work) : list string :=
  let concepts := display_names (w_concepts w) in
  let topics := display_names (w_topics w) in
  filter (fun c => PyStr.lower c <> "other") (concepts ++ topics).

Definition concepts_list_of (w : work) : string :=
  PyStr.join ";" (all_concepts w).

Section FinalStrictCreator.

(** The order in which Python enumerates [set(l)]: the language fixes the
    elements, not their order, which follows the hashes of the process. *)
Variable set_iter : list string -> list string.

Variable scopus_sources : gset string.
Variable scimago_data : gmap Z (list row).

(** [[s for s in set([normalize_issn(x) for x in issn_list]) if s]] *)
Definition venue_issn_list_of (primary_source : option venue) : list string :=
  filter (fun s => PyStr.nonempty s = true)
         (set_iter (map normalize_issn (raw_issn_list primary_source))).

(** The loop over [issn_list] that stops at the first quartile found. *)
Definition resolve_quartile (issn_list : list string) (pub_year : option Z)
    : option string :=
  match pub_year with
  | None => None
  | Some y =>
      if Z.eqb y 0 then None
      else first_some (fun issn => get_scimago_quartile scimago_data (CStr issn) y)
                      issn_list
  end.

(** The row built from a fetched document. *)
Definition enriched_row (orig : raw_record) (w : work) : enriched :=
  let primary_source := w_primary_source w in
  let issn_list := venue_issn_list_of primary_source in
  let pub_year := or_int (w_publication_year w) (publication_year orig) in
  {| e_work_id := work_id orig;
     e_doi := w_doi w;
     e_title := w_title w;
     e_abstract := w_abstract w;
     e_publication_year := pub_year;
     e_publication_date := or_str (w_publication_date w) (publication_date orig);
     e_type := or_str (w_type w) (type_ orig);
     e_language := or_str (w_language w) (language orig);
     e_cited_by_count := w_cited_by_count w;
     e_open_access_is_oa := w_is_oa w;
     e_open_access_oa_status := w_oa_status w;
     e_source_name := primary_source ≫= display_name;
     e_source_type := primary_source ≫= venue_type;
     e_source_issn_l := primary_source ≫= issn_l;
     e_source_issn := issn_list;
     e_multi_institution := get_default (multi_institution orig) false;
     e_multi_country := get_default (multi_country orig) false;
     e_authors_count := get_default (authors_count orig) 0%Z;
     e_institutions_count := get_default (institutions_count orig) 0%Z;
     e_concepts_list := concepts_list_of w;
     e_venue_issn_list := PyStr.join ";" issn_list;
     e_is_scopus_indexed := is_scopus_indexed scopus_sources (map CStr issn_list);
     e_scimago_quartile := resolve_quartile issn_list pub_year |}.

(** One turn of the loop over [works_details]: the row appended, if any,
    or the exception raised. *)
Definition process_work (df_all : list raw_record)
    (entry : string * body) : failure + option enriched :=
  let '(wid, detail) := entry in
  if negb (body_truth detail) then inr (fallback_row <$> original_row df_all wid)
  else match original_row df_all wid with
       | None => inr None
       | Some orig =>
           match detail with
           | BDocument d =>
               match read_document d with
               | inl f => inl f
               | inr w => inr (Some (enriched_row orig w))
               end
           | _ => inl AttributeError
           end
       end.

(** The loop over [works_details]: the rows appended, unless a turn
    raises. *)
Fixpoint process_all (df_all : list raw_record)
    (works_details : list (string * body)) : failure + list enriched :=
  match works_details with
  | [] => inr []
  | entry :: rest =>
      match process_work df_all entry with
      | inl f => inl f
      | inr appended =>
          match process_all df_all rest with
          | inl f => inl f
          | inr rows =>
              inr (match appended with
                   | Some r => r :: rows
                   | None => rows
                   end)
          end
      end
  end.

(** The numeric coercions applied to the finished frame: the year becomes a
    nullable integer, a missing citation count becomes 0. *)
Definition coerce_numeric (r : enriched) : enriched :=
  {| e_work_id := e_work_id r;
     e_doi := e_doi r;
     e_title := e_title r;
     e_abstract := e_abstract r;
     e_publication_year := e_publication_year r;
     e_publication_date := e_publication_date r;
     e_type := e_type r;
     e_language := e_language r;
     e_cited_by_count := Some (default 0%Z (e_cited_by_count r));
     e_open_access_is_oa := e_open_access_is_oa r;
     e_open_access_oa_status := e_open_access_oa_status r;
     e_source_name := e_source_name r;
     e_source_type := e_source_type r;
     e_source_issn_l := e_source_issn_l r;
     e_source_issn := e_source_issn r;
     e_multi_institution := e_multi_institution r;
     e_multi_country := e_multi_country r;
     e_authors_count := e_authors_count r;
     e_institutions_count := e_institutions_count r;
     e_concepts_list := e_concepts_list r;
     e_venue_issn_list := e_venue_issn_list r;
     e_is_scopus_indexed := e_is_scopus_indexed r;
     e_scimago_quartile := e_scimago_quartile r |}.

(** The table returned, or the exception raised, and the fetcher as the
    fetch loop left it. *)
Definition enhance_all_dataset (api : nat -> string -> response)
    (st : fetcher) (df_all : list raw_record)
    : (failure + list enriched) * fetcher :=
  let work_ids := map (fun r => normalize_openalex_id (work_id r)) df_all in
  let '(works_details, st') := fetch_all api st work_ids in
  (match process_all df_all works_details with
   | inl f => inl f
   | inr enhanced_rows => inr (map coerce_numeric enhanced_rows)
   end, st').

(** The accepted labels for a threshold. *)
Definition valid_quartiles (quartile_threshold : string) : list string :=
  if String.eqb quartile_threshold "Q3" then ["Q1"; "Q2"; "Q3"] else ["Q1"; "Q2"].

(** [scopus_filtered["scimago_quartile"].isin(valid_quartiles)] on a row. *)
Definition quartile_isin (valid_quartiles : list string) (r : enriched) : bool :=
  match e_scimago_quartile r with
  | Some q => isin q valid_quartiles
  | None => false
  end.

Definition create_strict_dataset (df_enhanced : list enriched)
    (quartile_threshold : string) : list enriched :=
  let scopus_filtered :=
    if bool_decide (scopus_sources = ∅) then df_enhanced
    else filter (fun r => e_is_scopus_indexed r = true) df_enhanced in
  filter (fun r => quartile_isin (valid_quartiles quartile_threshold) r = true)
         scopus_filtered.

End FinalStrictCreator.

(** ** Notions of the design document *)

(** An admissible enumeration of a set built from [l]: every element of
    [l] once, in some order. *)
Definition set_iteration (it : list string -> list string) : Prop :=
  forall l, it l ≡ₚ remove_dups l.

(** The identifiers a ranking row carries, split and normalised. *)
Definition row_identifiers (r : row) : list string :=
  flat_map (fun issn_raw =>
              map (fun candidate => normalize_issn (CStr candidate))
                  (map PyStr.strip (PyStr.split "," issn_raw)))
           (issn_values r).

Definition row_matches (target : string) (r : row) : bool :=
  existsb (fun id => String.eqb id target) (row_identifiers r).

(** First-match resolution over a table: the quartile of the first row
    that carries the target and holds a valid label. *)
Definition first_match_quartile (target : string) (df_year : list row)
    : option string :=
  match List.find (fun r => row_matches target r && bool_decide (is_Some (row_quartile r)))
                  df_year with
  | Some r => row_quartile r
  | None => None
  end.

(** The label of a row when the tier cell must hold a label exactly, with
    no white space around it. *)
Definition row_quartile_exact (r : row) : option string :=
  first_some (fun qcol =>
                match r !! qcol ≫= cell_str with
                | Some v => if isin v quartile_labels then Some v else None
                | None => None
                end) quartile_columns.

(** First-match resolution under that exact reading. *)
Definition first_match_quartile_exact (target : string) (df_year : list row)
    : option string :=
  match List.find (fun r => row_matches target r
                            && bool_decide (is_Some (row_quartile_exact r)))
                  df_year with
  | Some r => row_quartile_exact r
  | None => None
  end.

(** A body on which the enricher runs to its end. *)
Definition readable (b : body) : bool :=
  match b with
  | BNull | BFalsy => true
  | BOther => false
  | BDocument d => match read_document d with inr _ => true | inl _ => false end
  end.

(** Duplicates dropped, first occurrences kept in place. *)
Fixpoint dedup (l : list string) : list string :=
  match l with
  | [] => []
  | x :: l' => x :: filter (fun y => y <> x) (dedup l')
  end.

(** The concept list as the design document words it: both label lists,
    the sentinel removed, duplicates dropped, joined in discovery order. *)
Definition deduplicated_concepts_list (w : work) : string :=
  PyStr.join ";"
    (dedup (filter (fun c => PyStr.lower c <> "other")
                   (display_names (w_concepts w) ++ display_names (w_topics w)))).

(** ** Sample data *)

Module Fixtures.

Definition empty_fetcher : fetcher :=
  {| openalex_cache := ∅; contacts := [] |}.

Definition raw (id : string) (year : Z) : raw_record :=
  {| work_id := CStr id;
     publication_year := Some year;
     publication_date := None;
     type_ := Some "article";
     language := Some "en";
     cited_by_count := Present 3%Z;
     open_access_is_oa := Present true;
     open_access_oa_status := Present "gold";
     multi_institution := Present false;
     multi_country := Absent;
     authors_count := Present 2%Z;
     institutions_count := Null |}.

Definition journal : venue :=
  {| display_name := Some "Journal of Tests";
     venue_type := Some "journal";
     issn_l := Some "1234-5678";
     issn := IssnList [CStr "1234-5678"; CStr "8765-4321"] |}.

Definition paper : work :=
  {| w_doi := None;
     w_title := Some "A paper";
     w_abstract := None;
     w_publication_year := Some 2022%Z;
     w_publication_date := None;
     w_type := Some "article";
     w_language := Some "en";
     w_cited_by_count := Some 5%Z;
     w_is_oa := Some true;
     w_oa_status := Some "gold";
     w_primary_source := Some journal;
     w_concepts := [Some "Machine learning"; Some "Other"; None];
     w_topics := [Some "Machine learning"; Some "Robotics"; Some "other"] |}.

(** A document the enricher reads as [paper]. *)
Definition paper_json : document :=
  {| d_doi := None;
     d_title := Some "A paper";
     d_abstract := None;
     d_publication_year := Some 2022%Z;
     d_publication_date := None;
     d_type := Some "article";
     d_language := Some "en";
     d_cited_by_count := Present 5%Z;
     d_open_access := Present {| is_oa := Present true; oa_status := Present "gold" |};
     d_primary_location := Present {| source := Some journal |};
     d_concepts := Present [Some "Machine learning"; Some "Other"; None];
     d_topics := Present [Some "Machine learning"; Some "Robotics"; Some "other"] |}.


(** A source that answers the first request with an error status, body
    included, and serves the document afterwards. *)
Definition flaky_api (n : nat) (wid : string) : response :=
  match n with
  | O => Http 503 (Some (BDocument paper_json))
  | S _ => Http 200 (Some (BDocument paper_json))
  end.


(** A source that cannot be reached. *)
Definition down_api (n : nat) (wid : string) : response := TransportError.

(** Two enumerations of a set: first occurrences kept, and the reverse. *)
Definition forward (l : list string) : list string := remove_dups l.
Definition backward (l : list string) : list string := reverse (remove_dups l).

(** An enriched row with a given indexing flag and quartile. *)
Definition candidate (indexed : bool) (quartile : option string) : enriched :=
  {| e_work_id := CStr "W1";
     e_doi := None;
     e_title := Some "A paper";
     e_abstract := None;
     e_publication_year := Some 2022%Z;
     e_publication_date := None;
     e_type := Some "article";
     e_language := Some "en";
     e_cited_by_count := Some 5%Z;
     e_open_access_is_oa := Some true;
     e_open_access_oa_status := Some "gold";
     e_source_name := Some "Journal of Tests";
     e_source_type := Some "journal";
     e_source_issn_l := Some "1234-5678";
     e_source_issn := ["12345678"];
     e_multi_institution := Some false;
     e_multi_country := Some false;
     e_authors_count := Some 2%Z;
     e_institutions_count := Some 1%Z;
     e_concepts_list := "Machine learning";
     e_venue_issn_list := "12345678";
     e_is_scopus_indexed := indexed;
     e_scimago_quartile := quartile |}.

End Fixtures.

(** * Properties *)

(** ** Strings *)

Module PyStrFacts.
Import PyStr.

Lemma is_space_upper_char c : is_space (upper_char c) = is_space c.
Proof. destruct c as [[] [] [] [] [] [] [] []]; reflexivity. Qed.

Lemma upper_char_idem c : upper_char (upper_char c) = upper_char c.
Proof. destruct c as [[] [] [] [] [] [] [] []]; reflexivity. Qed.

Lemma hyphen_upper_char c :
  Ascii.eqb (upper_char c) "-" = Ascii.eqb c "-".
Proof. destruct c as [[] [] [] [] [] [] [] []]; reflexivity. Qed.

Lemma upper_idem s : upper (upper s) = upper s.
Proof.
  unfold upper. induction s as [|c s IH]; simpl; [done|].
  by rewrite upper_char_idem, IH.
Qed.

Lemma upper_empty s : upper s = "" <-> s = "".
Proof. destruct s; simpl; split; intros H; (done || discriminate H). Qed.

(** Removing the one-character string "-" drops the hyphens one by one. *)
Lemma remove_hyphen_cons c s :
  remove "-" (String c s) =
  if Ascii.eqb c "-" then remove "-" s else String c (remove "-" s).
Proof.
  unfold remove. cbn [remove_go String.prefix String.length Nat.sub].
  destruct (Ascii.eqb_spec c "-") as [->|Hne].
  - destruct (ascii_dec "-" "-") as [_|Hne]; [|done]. by destruct s.
  - destruct (ascii_dec "-" c) as [<-|_]; done.
Qed.

Lemma remove_hyphen_free s : hyphen_free (remove "-" s) = true.
Proof.
  induction s as [|c s IH]; [done|].
  rewrite remove_hyphen_cons.
  destruct (Ascii.eqb c "-") eqn:E; [done|]. simpl. by rewrite E, IH.
Qed.

Lemma remove_hyphen_id s : hyphen_free s = true -> remove "-" s = s.
Proof.
  induction s as [|c s IH]; [done|]. simpl.
  intros [Hc Hs]%andb_prop. rewrite remove_hyphen_cons.
  apply negb_true_iff in Hc. rewrite Hc. by rewrite IH.
Qed.

Lemma remove_hyphen_upper s : remove "-" (upper s) = upper (remove "-" s).
Proof.
  induction s as [|c s IH]; [done|].
  change (upper (String c s)) with (String (upper_char c) (upper s)).
  rewrite !remove_hyphen_cons, hyphen_upper_char.
  destruct (Ascii.eqb c "-"); [done|].
  change (upper (String c (remove "-" s)))
    with (String (upper_char c) (upper (remove "-" s))).
  by rewrite IH.
Qed.

Lemma lstrip_upper s : lstrip (upper s) = upper (lstrip s).
Proof.
  induction s as [|c s IH]; [done|].
  change (upper (String c s)) with (String (upper_char c) (upper s)).
  simpl. rewrite is_space_upper_char. by destruct (is_space c).
Qed.

Lemma rstrip_upper s : rstrip (upper s) = upper (rstrip s).
Proof.
  induction s as [|c s IH]; [done|].
  change (upper (String c s)) with (String (upper_char c) (upper s)).
  simpl. rewrite IH, is_space_upper_char.
  destruct (rstrip s); simpl; [by destruct (is_space c)|done].
Qed.

Lemma strip_upper s : strip (upper s) = upper (strip s).
Proof. unfold strip. by rewrite lstrip_upper, rstrip_upper. Qed.

Lemma hyphen_free_lstrip s : hyphen_free s = true -> hyphen_free (lstrip s) = true.
Proof.
  induction s as [|c s IH]; [done|]. simpl.
  intros H. destruct (is_space c); [|done].
  apply andb_prop in H as [_ H]. auto.
Qed.

Lemma hyphen_free_rstrip s : hyphen_free s = true -> hyphen_free (rstrip s) = true.
Proof.
  induction s as [|c s IH]; [done|]. simpl.
  intros [Hc Hs]%andb_prop. specialize (IH Hs).
  destruct (rstrip s) eqn:E.
  - destruct (is_space c); simpl; [done|]. by rewrite Hc.
  - simpl in *. by rewrite Hc, IH.
Qed.

Lemma hyphen_free_strip s : hyphen_free s = true -> hyphen_free (strip s) = true.
Proof. intros H. unfold strip. by apply hyphen_free_rstrip, hyphen_free_lstrip. Qed.

Lemma rstrip_idem s : rstrip (rstrip s) = rstrip s.
Proof.
  induction s as [|c s IH]; [done|]. simpl.
  destruct (rstrip s) as [|d r] eqn:E.
  - destruct (is_space c) eqn:Ec; [done|]. simpl. by rewrite Ec.
  - remember (String d r) as t. simpl. rewrite IH. by subst t.
Qed.

Lemma lstrip_clean_head s : clean_head (lstrip s).
Proof.
  induction s as [|c s IH]; [done|]. simpl.
  destruct (is_space c) eqn:E; [done|]. exact E.
Qed.

Lemma lstrip_id s : clean_head s -> lstrip s = s.
Proof. destruct s as [|c s]; [done|]. simpl. by intros ->. Qed.

Lemma rstrip_clean_head s : clean_head s -> clean_head (rstrip s).
Proof.
  destruct s as [|c s]; [done|]. simpl. intros Hc.
  destruct (rstrip s); [by rewrite Hc|done].
Qed.

Lemma strip_idem s : strip (strip s) = strip s.
Proof.
  unfold strip.
  rewrite (lstrip_id (rstrip (lstrip s))).
  - apply rstrip_idem.
  - apply rstrip_clean_head, lstrip_clean_head.
Qed.

End PyStrFacts.

(** ** Identifier normalisation *)

Lemma normalize_issn_str_idem s :
  normalize_issn (CStr (normalize_issn (CStr s))) = normalize_issn (CStr s).
Proof.
  unfold normalize_issn.
  rewrite PyStrFacts.remove_hyphen_upper.
  rewrite (PyStrFacts.remove_hyphen_id (PyStr.strip (PyStr.remove "-" s))).
  - by rewrite PyStrFacts.strip_upper, PyStrFacts.strip_idem, PyStrFacts.upper_idem.
  - apply PyStrFacts.hyphen_free_strip, PyStrFacts.remove_hyphen_free.
Qed.

(** C2. [normalize_issn] is a total function into strings: it gives the
    empty string on [None] and on a missing (NaN) value, and it is
    idempotent: normalising a normalised value returns it unchanged. *)
Theorem normalize_issn_total_idempotent :
  normalize_issn CNone = "" /\ normalize_issn CNaN = "" /\
  forall x : cell, normalize_issn (CStr (normalize_issn x)) = normalize_issn x.
Proof.
  split; [done|]. split; [done|].
  intros [| |s|s t]; [done|done|apply normalize_issn_str_idem..].
Qed.

(** ** The memoised fetcher *)

Section FetcherFacts.

Variable api : nat -> string -> response.

(** The ways a call can end. *)
Lemma get_work_details_single_cases st wid :
  (wid = "" /\ get_work_details_single api st wid = (BNull, st))
  \/ (wid <> "" /\
      exists data, openalex_cache st !! wid = Some data /\
                   get_work_details_single api st wid = (data, st))
  \/ (wid <> "" /\ openalex_cache st !! wid = None /\
      ((exists data,
          api (length (contacts st)) wid = Http 200 (Some data) /\
          get_work_details_single api st wid =
          (data, {| openalex_cache := <[wid := data]> (openalex_cache st);
                    contacts := contacts st ++ [wid] |}))
       \/ ((forall data, api (length (contacts st)) wid <> Http 200 (Some data)) /\
           get_work_details_single api st wid =
           (BNull, {| openalex_cache := openalex_cache st;
                      contacts := contacts st ++ [wid] |})))).
Proof.
  unfold get_work_details_single.
  destruct wid as [|c wid]; [by left|]. cbn [PyStr.nonempty negb].
  destruct (openalex_cache st !! String c wid) as [data|] eqn:Hc.
  - right; left. split; [done|]. by exists data.
  - right; right. split; [done|]. split; [done|].
    destruct (api _ _) as [code json|]; [|by right].
    destruct code as [|p|p]; [by right| |by right].
    do 8 (destruct p as [p|p|]; try (by right)).
    destruct json as [data|]; [left; by exists data|by right].
Qed.

(** Entries of the memo table are never dropped nor overwritten. *)
Lemma get_work_details_single_keeps st wid k data :
  openalex_cache st !! k = Some data ->
  openalex_cache (get_work_details_single api st wid).2 !! k = Some data.
Proof.
  intros Hk.
  destruct (get_work_details_single_cases st wid)
    as [[_ ->]|[(_ & d & _ & ->)|(_ & Hnone & [(d & _ & ->)|[_ ->]])]];
    simpl; try done.
  rewrite lookup_insert_ne; [done|]. intros ->. congruence.
Qed.

Lemma fetch_all_keeps ids : forall st k data,
  openalex_cache st !! k = Some data ->
  openalex_cache (fetch_all api st ids).2 !! k = Some data.
Proof.
  induction ids as [|wid ids IH]; intros st k data Hk; [done|]. simpl.
  pose proof (get_work_details_single_keeps st wid k data Hk) as H1.
  destruct (get_work_details_single api st wid) as [detail st1]. simpl in H1.
  specialize (IH st1 k data H1).
  destruct (fetch_all api st1 ids) as [details st2]. exact IH.
Qed.

(** A call on another identifier leaves an uncached identifier uncached. *)
Lemma get_work_details_single_other st wid k :
  k <> wid -> openalex_cache st !! k = None ->
  openalex_cache (get_work_details_single api st wid).2 !! k = None.
Proof.
  intros Hne Hk.
  destruct (get_work_details_single_cases st wid)
    as [[_ ->]|[(_ & d & _ & ->)|(_ & Hnone & [(d & _ & ->)|[_ ->]])]];
    simpl; try done.
  by rewrite lookup_insert_ne.
Qed.

Lemma fetch_all_other ids : forall st k,
  k ∉ ids -> openalex_cache st !! k = None ->
  openalex_cache (fetch_all api st ids).2 !! k = None.
Proof.
  induction ids as [|wid ids IH]; intros st k Hin Hk; [done|]. simpl.
  apply not_elem_of_cons in Hin as [Hne Hin].
  pose proof (get_work_details_single_other st wid k Hne Hk) as H1.
  destruct (get_work_details_single api st wid) as [detail st1]. simpl in H1.
  specialize (IH st1 k Hin H1).
  destruct (fetch_all api st1 ids) as [details st2]. exact IH.
Qed.

(** A call that returns a body other than null leaves it in the memo
    table. *)
Lemma get_work_details_single_stores st wid data st1 :
  get_work_details_single api st wid = (data, st1) ->
  data <> BNull ->
  wid <> "" /\ openalex_cache st1 !! wid = Some data.
Proof.
  intros Hget Hdata.
  destruct (get_work_details_single_cases st wid)
    as [[_ H]|[(Hw & d & Hd & H)|(Hw & Hnone & [(d & _ & H)|[_ H]])]];
    rewrite H in Hget; inversion Hget; subst; simpl; try done.
  split; [done|]. apply lookup_insert_eq.
Qed.

(** A cached identifier is answered from the table, the fetcher unchanged. *)
Lemma get_work_details_single_hit st wid data :
  wid <> "" -> openalex_cache st !! wid = Some data ->
  get_work_details_single api st wid = (data, st).
Proof.
  intros Hw Hc.
  destruct (get_work_details_single_cases st wid)
    as [[-> _]|[(_ & d & Hd & H)|(_ & Hnone & _)]]; [done| |congruence].
  rewrite H. congruence.
Qed.

(** An uncached, non-empty identifier is always sent to the source. *)
Lemma get_work_details_single_miss st wid :
  wid <> "" -> openalex_cache st !! wid = None ->
  contacts (get_work_details_single api st wid).2 = contacts st ++ [wid].
Proof.
  intros Hw Hc.
  destruct (get_work_details_single_cases st wid)
    as [[-> _]|[(_ & d & Hd & H)|(_ & _ & [(d & _ & ->)|[_ ->]])]];
    [done|congruence|done|done].
Qed.

End FetcherFacts.

(** C1. Take a non-empty identifier the memo table does not hold, and the
    response of the source to the request the call sends.  When the
    response has status 200 and a body that parses, the call returns the
    body and stores it, and every later call for the identifier, after any
    further calls, returns that body and leaves the fetcher as it is: the
    source is not contacted again.  When the response has another status
    (with or without a body), is a transport error, or has a body that
    does not parse, the call returns nothing and stores nothing, and the
    next call for the identifier, after any calls for other identifiers,
    contacts the source again. *)
Theorem fetch_memoization (api : nat -> string -> response)
    (st : fetcher) (wid : string) :
  wid <> "" ->
  openalex_cache st !! wid = None ->
  let r := api (length (contacts st)) wid in
  (forall data,
      r = Http 200 (Some data) ->
      exists st1,
        get_work_details_single api st wid = (data, st1)
        /\ openalex_cache st1 = <[wid := data]> (openalex_cache st)
        /\ contacts st1 = contacts st ++ [wid]
        /\ forall ids,
             let st2 := (fetch_all api st1 ids).2 in
             get_work_details_single api st2 wid = (data, st2)
             /\ contacted st2 (get_work_details_single api st2 wid).2 = false)
  /\ (r = TransportError
      \/ (exists status_code json, r = Http status_code json /\ status_code <> 200%Z)
      \/ r = Http 200 None ->
      exists st1,
        get_work_details_single api st wid = (BNull, st1)
        /\ openalex_cache st1 = openalex_cache st
        /\ contacts st1 = contacts st ++ [wid]
        /\ forall ids,
             wid ∉ ids ->
             let st2 := (fetch_all api st1 ids).2 in
             contacts (get_work_details_single api st2 wid).2 = contacts st2 ++ [wid]
             /\ contacted st2 (get_work_details_single api st2 wid).2 = true).
Proof.
  intros Hw Hnone r.
  destruct (get_work_details_single_cases api st wid)
    as [[-> _]|[(_ & d & Hd & _)|(_ & _ & Hcases)]]; [done|congruence|].
  split.
  - intros data Hr.
    destruct Hcases as [(d & Hd & Hget)|[Hfail _]]; [|by destruct (Hfail data)].
    fold r in Hd. rewrite Hr in Hd. inversion Hd; subst d.
    eexists. split; [exact Hget|]. split; [done|]. split; [done|].
    intros ids st2.
    assert (Hhit : get_work_details_single api st2 wid = (data, st2)).
    { apply get_work_details_single_hit; [done|]. apply fetch_all_keeps.
      apply lookup_insert_eq. }
    split; [done|]. rewrite Hhit. unfold contacted. simpl.
    by rewrite Nat.eqb_refl.
  - intros Hr.
    destruct Hcases as [(d & Hd & _)|[_ Hget]].
    { fold r in Hd. rewrite Hd in Hr.
      destruct Hr as [Hr|[(code & json & Hr & Hcode)|Hr]]; [done| |done].
      inversion Hr; subst. done. }
    eexists. split; [exact Hget|]. split; [done|]. split; [done|].
    intros ids Hin.
    set (st2 := (fetch_all api _ ids).2).
    assert (Hmiss : contacts (get_work_details_single api st2 wid).2
                    = contacts st2 ++ [wid]).
    { apply get_work_details_single_miss; [done|]. by apply fetch_all_other. }
    split; [done|]. unfold contacted. rewrite Hmiss, length_app. simpl.
    apply negb_true_iff, Nat.eqb_neq. lia.
Qed.

Lemma fetch_memoization_witness :
  let st1 := (get_work_details_single Fixtures.flaky_api
                Fixtures.empty_fetcher "W1").2 in
  let st2 := (get_work_details_single Fixtures.flaky_api st1 "W1").2 in
  let st3 := (fetch_all Fixtures.flaky_api st2 ["W2"; "W1"]).2 in
  (get_work_details_single Fixtures.flaky_api Fixtures.empty_fetcher "W1"
   = (BNull, st1)
   /\ openalex_cache st1 = ∅ /\ contacts st1 = ["W1"])
  /\ (get_work_details_single Fixtures.flaky_api st1 "W1"
      = (BDocument Fixtures.paper_json, st2)
      /\ contacts st2 = ["W1"; "W1"])
  /\ get_work_details_single Fixtures.flaky_api st3 "W1"
     = (BDocument Fixtures.paper_json, st3).
Proof.
  intros st1 st2 st3.
  destruct (fetch_memoization Fixtures.flaky_api Fixtures.empty_fetcher "W1")
    as [_ Hfail]; [discriminate|reflexivity|].
  destruct Hfail as (st1' & Hget1 & Hcache1 & Hlog1 & _).
  { right; left. exists 503%Z, (Some (BDocument Fixtures.paper_json)).
    split; [reflexivity|discriminate]. }
  assert (E1 : st1' = st1) by (unfold st1; by rewrite Hget1). subst st1'.
  destruct (fetch_memoization Fixtures.flaky_api st1 "W1")
    as [Hok _]; [discriminate|by rewrite Hcache1|].
  destruct (Hok (BDocument Fixtures.paper_json)) as (st2' & Hget2 & _ & Hlog2 & Hlater).
  { by rewrite Hlog1. }
  assert (E2 : st2' = st2) by (unfold st2; by rewrite Hget2). subst st2'.
  split; [by rewrite Hcache1|].
  split; [split; [exact Hget2|by rewrite Hlog2, Hlog1]|].
  exact (proj1 (Hlater ["W2"; "W1"])).
Defined.
(** ** The indexing registry *)

Lemma elem_of_add_column_issns vals : forall (acc : gset string) (s : string),
  s ∈ add_column_issns vals acc <->
  s ∈ acc \/
  exists c v, c ∈ vals /\ cell_str c = Some v /\
              s = normalize_issn (CStr v) /\ String.length s = 8.
Proof.
  unfold add_column_issns.
  induction vals as [|x vals IH]; intros acc s; cbn [foldl].
  - split; [by left|]. intros [H|(c & v & Hc & _)]; [done|].
    by apply elem_of_nil in Hc.
  - rewrite IH. clear IH. split.
    + intros [Hacc|(c & v & Hc & Hrest)].
      * destruct (cell_str x) as [v|] eqn:Ex; [|by left].
        destruct (Nat.eqb_spec (String.length (normalize_issn (CStr v))) 8) as [E|E];
          [|by left].
        apply elem_of_union in Hacc as [Hacc|Hacc]; [|by left].
        apply elem_of_singleton in Hacc. subst s.
        right. exists x, v. split; [left|done].
      * right. exists c, v. split; [by right|done].
    + intros [Hacc|(c & v & Hc & Hstr & Hs & Hlen)].
      * left. destruct (cell_str x) as [v|]; [|done].
        destruct (Nat.eqb (String.length (normalize_issn (CStr v))) 8); [|done].
        apply elem_of_union. by right.
      * apply elem_of_cons in Hc as [Hc|Hc]; [|right; by exists c, v].
        left. subst x. rewrite Hstr. subst s.
        apply Nat.eqb_eq in Hlen. rewrite Hlen.
        apply elem_of_union. left. by apply elem_of_singleton.
Qed.

Lemma elem_of_load_columns df cols : forall (acc : gset string) (s : string),
  s ∈ foldl (fun issn_set col =>
               match assoc col df with
               | Some vals => add_column_issns vals issn_set
               | None => issn_set
               end) acc cols <->
  s ∈ acc \/
  exists col vals c v,
    col ∈ cols /\ assoc col df = Some vals /\ c ∈ vals /\ cell_str c = Some v /\
    s = normalize_issn (CStr v) /\ String.length s = 8.
Proof.
  induction cols as [|k cols IH]; intros acc s; cbn [foldl].
  - split; [by left|]. intros [H|(col & ? & ? & ? & Hc & _)]; [done|].
    by apply elem_of_nil in Hc.
  - rewrite IH. clear IH. split.
    + intros [Hacc|(col & vals & c & v & Hc & Hrest)].
      * destruct (assoc k df) as [vals|] eqn:E; [|by left].
        apply elem_of_add_column_issns in Hacc as [Hacc|(c & v & Hv & Hs)];
          [by left|].
        right. exists k, vals, c, v. split; [left|done].
      * right. exists col, vals, c, v. split; [by right|done].
    + intros [Hacc|(col & vals & c & v & Hc & Hdf & Hv & Hs)].
      * left. destruct (assoc k df); [|done].
        apply elem_of_add_column_issns. by left.
      * apply elem_of_cons in Hc as [->|Hc]; [|right; by exists col, vals, c, v].
        left. rewrite Hdf. apply elem_of_add_column_issns. right. by exists c, v.
Qed.

Lemma elem_of_load_scopus_sources (df : list (string * list cell)) (s : string) :
  s ∈ load_scopus_sources (FileFrame df) <->
  exists col vals c v,
    col ∈ scopus_columns /\ assoc col df = Some vals /\
    c ∈ vals /\ cell_str c = Some v /\
    s = normalize_issn (CStr v) /\ String.length s = 8.
Proof.
  unfold load_scopus_sources.
  rewrite elem_of_load_columns. split; [|by right].
  intros [H|H]; [|done]. by apply elem_of_empty in H.
Qed.

(** C9, as the code has it.  The loader reads the four columns named
    exactly ISSN, EISSN, Issn and issn; the registry holds exactly the
    normalised forms, eight characters long, of the values present in those
    columns, each taken by its [str()] rendering.  A missing or unreadable
    file gives the empty registry. *)
Theorem load_scopus_sources_columns :
  load_scopus_sources FileMissing = ∅ /\
  load_scopus_sources FileUnreadable = ∅ /\
  forall (df : list (string * list cell)) (s : string),
    s ∈ load_scopus_sources (FileFrame df) <->
    exists col vals c v,
      col ∈ ["ISSN"; "EISSN"; "Issn"; "issn"] /\ assoc col df = Some vals /\
      c ∈ vals /\ cell_str c = Some v /\
      s = normalize_issn (CStr v) /\ String.length s = 8.
Proof.
  split; [done|]. split; [done|]. intros df s.
  apply elem_of_load_scopus_sources.
Qed.

(** C9, counterexample.  A column named eissn contains "issn" once
    lowered, and its value normalises to eight characters, yet the loader
    leaves the registry empty. *)
Lemma load_scopus_sources_ignores_eissn_column :
  let df := [("eissn", [CStr "1234-5678"])] in
  issn_column "eissn" = true /\
  String.length (normalize_issn (CStr "1234-5678")) = 8 /\
  ~ normalize_issn (CStr "1234-5678") ∈ load_scopus_sources (FileFrame df).
Proof.
  split; [reflexivity|]. split; [reflexivity|].
  assert (E : load_scopus_sources (FileFrame [("eissn", [CStr "1234-5678"])]) = ∅)
    by (vm_compute; reflexivity).
  rewrite E. apply not_elem_of_empty.
Qed.




(** ** Quartile resolution *)

Lemma first_some_guard {A B : Type} (p : A -> bool) (res : option B) (l : list A) :
  first_some (fun x => if p x then res else None) l =
  if existsb p l then res else None.
Proof.
  induction l as [|x l IH]; [done|]. simpl.
  destruct (p x); simpl; [|exact IH].
  destruct res; [done|]. rewrite IH. by destruct (existsb p l).
Qed.

Lemma existsb_map_comp {A B : Type} (f : A -> B) (p : B -> bool) (l : list A) :
  existsb p (map f l) = existsb (fun x => p (f x)) l.
Proof. induction l as [|x l IH]; [done|]. simpl. by rewrite IH. Qed.

Lemma first_some_nested {A B C : Type} (g : A -> list B) (p : B -> bool)
    (res : option C) (l : list A) :
  first_some (fun x => first_some (fun y => if p y then res else None) (g x)) l =
  if existsb p (flat_map g l) then res else None.
Proof.
  induction l as [|x l IH]; [done|]. simpl.
  rewrite existsb_app, first_some_guard.
  destruct (existsb p (g x)); simpl; [|exact IH].
  destruct res; [done|]. rewrite IH. by destruct (existsb p (flat_map g l)).
Qed.

(** One row: the label of the row when it carries the target. *)
Lemma scan_row_matches target r :
  scan_row target r = if row_matches target r then row_quartile r else None.
Proof.
  unfold scan_row, row_matches, row_identifiers.
  rewrite (first_some_nested
             (fun issn_raw => map PyStr.strip (PyStr.split "," issn_raw))
             (fun candidate => String.eqb (normalize_issn (CStr candidate)) target)).
  assert (E : forall vs,
    existsb (fun candidate => String.eqb (normalize_issn (CStr candidate)) target)
      (flat_map (fun issn_raw => map PyStr.strip (PyStr.split "," issn_raw)) vs)
    = existsb (fun id => String.eqb id target)
        (flat_map (fun issn_raw =>
                     map (fun candidate => normalize_issn (CStr candidate))
                         (map PyStr.strip (PyStr.split "," issn_raw))) vs)).
  { induction vs as [|v vs IH]; [done|].
    cbn [flat_map]. rewrite !existsb_app, IH. f_equal.
    by rewrite !existsb_map_comp. }
  by rewrite E.
Qed.

Lemma first_some_scan_rows target rows :
  first_some (scan_row target) rows = first_match_quartile target rows.
Proof.
  unfold first_match_quartile.
  induction rows as [|r rows IH]; [done|]. simpl.
  rewrite scan_row_matches.
  destruct (row_matches target r); simpl; [|exact IH].
  destruct (row_quartile r) as [q|] eqn:E; simpl; [done|exact IH].
Qed.

(** The first row that both carries the target and holds a label decides. *)
Lemma first_match_quartile_first target pre r post q :
  Forall (fun r' => row_matches target r' = false \/ row_quartile r' = None) pre ->
  row_matches target r = true ->
  row_quartile r = Some q ->
  first_match_quartile target (pre ++ r :: post) = Some q.
Proof.
  intros Hpre Hm Hq. unfold first_match_quartile.
  induction Hpre as [|r' pre Hr' _ IH]; simpl.
  - rewrite Hm, Hq. by simpl.
  - destruct Hr' as [->|Hn]; [exact IH|].
    rewrite Hn, andb_comm. exact IH.
Qed.

Lemma first_match_quartile_none target rows :
  Forall (fun r' => row_matches target r' = false \/ row_quartile r' = None) rows ->
  first_match_quartile target rows = None.
Proof.
  intros Hrows. unfold first_match_quartile.
  induction Hrows as [|r' rows Hr' _ IH]; simpl; [done|].
  destruct Hr' as [->|Hn]; [exact IH|].
  rewrite Hn, andb_comm. exact IH.
Qed.

(** The resolver seen through the truth value and the normal form of its
    target. *)
Lemma get_scimago_quartile_unfold (scimago_data : gmap Z (list row))
    (source_issn : cell) (publication_year : Z) :
  get_scimago_quartile scimago_data source_issn publication_year =
  if truthy source_issn then
    match scimago_data !! publication_year with
    | None => None
    | Some df_year =>
        if String.eqb (normalize_issn source_issn) "" then None
        else first_match_quartile (normalize_issn source_issn) df_year
    end
  else None.
Proof.
  unfold get_scimago_quartile.
  destruct (truthy source_issn); simpl; [|done].
  destruct (scimago_data !! publication_year); [|done].
  by rewrite first_some_scan_rows.
Qed.

(** C4, as the code has it.  For a year with a loaded table, a target
    with a truth value and a non-empty normal form resolves, first match
    first, to the label of the first row in table order that carries the
    normalised target among its split and normalised identifiers and
    holds, once surrounding white space is trimmed, one of the four labels
    in one of the candidate columns; rows after it never matter, and
    without such a row the result is absent.  A target without truth
    value or with an empty normal form resolves to nothing, as the first
    two steps of the resolver have it. *)
Theorem get_scimago_quartile_first_match (scimago_data : gmap Z (list row))
    (source_issn : cell) (publication_year : Z) (df_year : list row) :
  scimago_data !! publication_year = Some df_year ->
  let target := normalize_issn source_issn in
  (truthy source_issn = false \/ target = "" ->
   get_scimago_quartile scimago_data source_issn publication_year = None)
  /\ (truthy source_issn = true -> target <> "" ->
      get_scimago_quartile scimago_data source_issn publication_year
      = first_match_quartile target df_year
      /\ (forall pre r post q,
             df_year = pre ++ r :: post ->
             Forall (fun r' => row_matches target r' = false
                               \/ row_quartile r' = None) pre ->
             row_matches target r = true ->
             row_quartile r = Some q ->
             get_scimago_quartile scimago_data source_issn publication_year = Some q)
      /\ (Forall (fun r' => row_matches target r' = false
                            \/ row_quartile r' = None) df_year ->
          get_scimago_quartile scimago_data source_issn publication_year = None)).
Proof.
  intros Hyear target. rewrite get_scimago_quartile_unfold, Hyear. fold target.
  split.
  - intros [Hf|Ht]; [by rewrite Hf|]. rewrite Ht. by destruct (truthy source_issn).
  - intros -> Ht. destruct (String.eqb_spec target "") as [|_]; [done|].
    split; [done|]. split.
    + intros pre r post q -> Hpre Hm Hq.
      by apply first_match_quartile_first.
    + apply first_match_quartile_none.
Qed.

(** C4, counterexample.  Two rows carry the target; the tier cell of the
    first holds the label Q2 behind a blank, that of the second holds Q1
    exactly.  Read with exact labels, the first row has no valid tier and
    the answer is Q1; the resolver trims the cell and answers Q2. *)
Lemma get_scimago_quartile_trims_tier :
  let r1 : row := {[ "Issn" := CStr "12345678"; "SJR Quartile" := CStr " Q2" ]} in
  let r2 : row := {[ "Issn" := CStr "12345678"; "SJR Quartile" := CStr "Q1" ]} in
  row_matches "12345678" r1 = true /\
  row_quartile_exact r1 = None /\
  first_match_quartile_exact (normalize_issn (CStr "1234-5678")) [r1; r2]
  = Some "Q1" /\
  get_scimago_quartile {[ 2022%Z := [r1; r2] ]} (CStr "1234-5678") 2022 = Some "Q2".
Proof. repeat split; vm_compute; reflexivity. Qed.

Lemma get_scimago_quartile_first_match_witness :
  let r1 : row := {[ "Issn" := CStr "12345678, 23456789";
                     "SJR Quartile" := CStr "Q2" ]} in
  let r2 : row := {[ "Issn" := CStr "1234-5678"; "SJR Quartile" := CStr "Q1" ]} in
  get_scimago_quartile {[ 2022%Z := [r1; r2] ]} (CStr "1234-5678") 2022 = Some "Q2".
Proof.
  intros r1 r2.
  destruct (get_scimago_quartile_first_match
              {[ 2022%Z := [r1; r2] ]} (CStr "1234-5678") 2022 [r1; r2])
    as [_ H]; [vm_compute; reflexivity|].
  destruct H as (_ & Hfirst & _); [reflexivity|vm_compute; discriminate|].
  apply (Hfirst [] r1 [r2] "Q2").
  - reflexivity.
  - constructor.
  - vm_compute; reflexivity.
  - vm_compute; reflexivity.
Defined.

(** ** Enrichment *)

Lemma fetch_all_ids (api : nat -> string -> response) ids : forall st,
  map fst (fetch_all api st ids).1 = ids.
Proof.
  induction ids as [|wid ids IH]; intros st; [done|]. simpl.
  destruct (get_work_details_single api st wid) as [detail st1].
  specialize (IH st1). destruct (fetch_all api st1 ids) as [details st2].
  simpl in *. by rewrite IH.
Qed.

(** Every record of the table finds an original row, which carries the
    same cleaned identifier. *)
Lemma original_row_found df_all r :
  r ∈ df_all ->
  exists orig,
    original_row df_all (normalize_openalex_id (work_id r)) = Some orig /\
    normalize_openalex_id (work_id orig) = normalize_openalex_id (work_id r).
Proof.
  unfold original_row. intros Hin.
  induction Hin as [r l|r r' l Hin IH]; rewrite filter_cons.
  - rewrite decide_True by done. by exists r.
  - destruct (decide _) as [E|_]; [by exists r'|exact IH].
Qed.


Lemma original_row_elem df_all wid orig :
  original_row df_all wid = Some orig ->
  orig ∈ df_all /\ normalize_openalex_id (work_id orig) = wid.
Proof.
  unfold original_row.
  induction df_all as [|a l IH]; [done|]. rewrite filter_cons.
  destruct (decide (normalize_openalex_id (work_id a) = wid)) as [E|_].
  - intros [= ->]. split; [left|done].
  - intros [H1 H2]%IH. split; [by right|done].
Qed.

Section EnricherFacts.

Variable set_iter : list string -> list string.
Variable scopus_sources : gset string.
Variable scimago_data : gmap Z (list row).

(** One turn of the loop, for an identifier that has an original row: a
    row is appended when the body is readable, an exception leaves
    otherwise. *)
Lemma process_work_found df_all wid b orig :
  original_row df_all wid = Some orig ->
  match process_work set_iter scopus_sources scimago_data df_all (wid, b) with
  | inr (Some e) =>
      readable b = true
      /\ (body_truth b = false -> e = fallback_row orig)
      /\ (body_truth b = true ->
          exists d w, b = BDocument d /\ read_document d = inr w /\
                      e = enriched_row set_iter scopus_sources scimago_data orig w)
  | inr None => False
  | inl _ => readable b = false
  end.
Proof.
  intros Horig. unfold process_work. rewrite Horig.
  destruct b as [| | |d]; simpl; try done.
  destruct (read_document d) as [f|w] eqn:E; [done|].
  split; [done|]. split; [done|]. intros _. by exists d, w.
Qed.

(** The loop returns when no turn raises. *)
Lemma process_all_returns df_all entries :
  (forall entry, entry ∈ entries ->
     exists o, process_work set_iter scopus_sources scimago_data df_all entry = inr o)
  <-> exists rows,
        process_all set_iter scopus_sources scimago_data df_all entries = inr rows.
Proof.
  induction entries as [|entry entries IH]; simpl.
  - split; [by exists []|]. intros _ entry H. by apply elem_of_nil in H.
  - split.
    + intros Hall. destruct (Hall entry) as [o Ho]; [left|]. rewrite Ho.
      destruct (proj1 IH) as [rows Hrows].
      { intros e He. apply Hall. by right. }
      rewrite Hrows. by eexists.
    + intros [rows Hrows] e He.
      destruct (process_work _ _ _ df_all entry) as [f|o] eqn:Ho; [done|].
      destruct (process_all _ _ _ df_all entries) as [f|rows'] eqn:Hrest; [done|].
      apply elem_of_cons in He as [->|He]; [by exists o|].
      apply (proj2 IH); [by exists rows'|done].
Qed.

(** When every turn appends, the rows appended stand in the order of the
    entries. *)
Lemma process_all_rows df_all entries : forall rows,
  process_all set_iter scopus_sources scimago_data df_all entries = inr rows ->
  (forall entry, entry ∈ entries ->
     process_work set_iter scopus_sources scimago_data df_all entry <> inr None) ->
  Forall2 (fun entry e =>
             process_work set_iter scopus_sources scimago_data df_all entry
             = inr (Some e)) entries rows.
Proof.
  induction entries as [|entry entries IH]; simpl; intros rows Hrows Hsome.
  - inversion Hrows. constructor.
  - destruct (process_work _ _ _ df_all entry) as [f|o] eqn:Ho; [done|].
    destruct (process_all _ _ _ df_all entries) as [f|rows'] eqn:Hrest; [done|].
    destruct o as [e|].
    + inversion Hrows; subst. constructor; [done|].
      apply IH; [done|]. intros e' He'. apply Hsome. by right.
    + destruct (Hsome entry); [left|done].
Qed.

(** The outcome of the enricher, through the two loops. *)
Lemma enhance_all_dataset_fst (api : nat -> string -> response)
    (st : fetcher) (df_all : list raw_record) :
  (enhance_all_dataset set_iter scopus_sources scimago_data api st df_all).1
  = match process_all set_iter scopus_sources scimago_data df_all
            (fetch_all api st
               (map (fun r => normalize_openalex_id (work_id r)) df_all)).1 with
    | inl f => inl f
    | inr enhanced_rows => inr (map coerce_numeric enhanced_rows)
    end.
Proof.
  unfold enhance_all_dataset. by destruct (fetch_all api st _).
Qed.

(** Every entry of [works_details] has an original row. *)
Lemma works_details_found (api : nat -> string -> response)
    (st : fetcher) (df_all : list raw_record) wid b :
  (wid, b) ∈ (fetch_all api st
                (map (fun r => normalize_openalex_id (work_id r)) df_all)).1 ->
  exists orig, original_row df_all wid = Some orig.
Proof.
  intros Hentry.
  assert (Hwid : wid ∈ map (fun r => normalize_openalex_id (work_id r)) df_all).
  { rewrite <- (fetch_all_ids api _ st). apply list_elem_of_fmap. by exists (wid, b). }
  apply list_elem_of_fmap in Hwid as (r & -> & Hr).
  destruct (original_row_found df_all r Hr) as (orig & Horig & _). by exists orig.
Qed.

(** The enricher returns a table exactly when every fetched body is
    readable; the table then holds, entry by entry, the rows appended. *)
Lemma enhance_all_dataset_outcome (api : nat -> string -> response)
    (st : fetcher) (df_all : list raw_record) :
  let works_details :=
    (fetch_all api st (map (fun r => normalize_openalex_id (work_id r)) df_all)).1 in
  let result :=
    (enhance_all_dataset set_iter scopus_sources scimago_data api st df_all).1 in
  ((forall wid b, (wid, b) ∈ works_details -> readable b = true)
   <-> exists df_enhanced, result = inr df_enhanced)
  /\ forall df_enhanced,
       result = inr df_enhanced ->
       exists rows,
         df_enhanced = map coerce_numeric rows /\
         Forall2 (fun entry e =>
                    process_work set_iter scopus_sources scimago_data df_all entry
                    = inr (Some e)) works_details rows.
Proof.
  intros works_details result.
  assert (Hres : result
                 = match process_all set_iter scopus_sources scimago_data df_all
                         works_details with
                   | inl f => inl f
                   | inr enhanced_rows => inr (map coerce_numeric enhanced_rows)
                   end) by apply enhance_all_dataset_fst.
  assert (Hturn : forall wid b, (wid, b) ∈ works_details ->
            (readable b = true <->
             exists o, process_work set_iter scopus_sources scimago_data df_all
                         (wid, b) = inr o)
            /\ process_work set_iter scopus_sources scimago_data df_all (wid, b)
               <> inr None).
  { intros wid b Hentry.
    destruct (works_details_found api st df_all wid b Hentry) as [orig Horig].
    pose proof (process_work_found df_all wid b orig Horig) as Hpw.
    destruct (process_work _ _ _ df_all (wid, b)) as [f|[e|]]; [| |done].
    - split; [|done]. split; [by rewrite Hpw|]. by intros [o [=]].
    - destruct Hpw as [Hr _]. split; [|done]. split; [by eexists|done]. }
  split.
  - split.
    + intros Hall.
      destruct (proj1 (process_all_returns df_all works_details)) as [rows Hrows].
      { intros [wid b] Hentry. apply (Hturn wid b Hentry). by apply (Hall wid). }
      exists (map coerce_numeric rows). by rewrite Hres, Hrows.
    + intros [df_enhanced Hinr] wid b Hentry. apply (Hturn wid b Hentry).
      apply (proj2 (process_all_returns df_all works_details)); [|done].
      rewrite Hres in Hinr.
      destruct (process_all _ _ _ df_all works_details) as [f|rows]; [done|].
      by exists rows.
  - intros df_enhanced Hinr. rewrite Hres in Hinr.
    destruct (process_all _ _ _ df_all works_details) as [f|rows] eqn:Hrows; [done|].
    inversion Hinr; subst. exists rows. split; [done|].
    apply process_all_rows; [done|]. intros [wid b] Hentry.
    apply (Hturn wid b Hentry).
Qed.

End EnricherFacts.




(** ** The corpus filter *)

Lemma isin_elem_of q labels : isin q labels = true <-> q ∈ labels.
Proof.
  unfold isin. rewrite existsb_exists. split.
  - intros (x & Hx & E). apply String.eqb_eq in E. subst x.
    by apply list_elem_of_In.
  - intros H. exists q. split; [by apply list_elem_of_In|apply String.eqb_refl].
Qed.

Lemma quartile_isin_spec labels r :
  quartile_isin labels r = true <->
  exists q, e_scimago_quartile r = Some q /\ q ∈ labels.
Proof.
  unfold quartile_isin. destruct (e_scimago_quartile r) as [q|].
  - rewrite isin_elem_of. split; [intros H; by exists q|].
    by intros (q' & [= ->] & H).
  - split; [done|]. by intros (q' & [=] & _).
Qed.

Lemma elem_of_create_strict_dataset (scopus_sources : gset string)
    (df_enhanced : list enriched) (quartile_threshold : string) (r : enriched) :
  r ∈ create_strict_dataset scopus_sources df_enhanced quartile_threshold <->
  r ∈ df_enhanced /\
  (scopus_sources = ∅ \/ e_is_scopus_indexed r = true) /\
  exists q, e_scimago_quartile r = Some q /\ q ∈ valid_quartiles quartile_threshold.
Proof.
  unfold create_strict_dataset. rewrite list_elem_of_filter, quartile_isin_spec.
  destruct (decide (scopus_sources = ∅)) as [E|E].
  - rewrite bool_decide_eq_true_2 by done. tauto.
  - rewrite bool_decide_eq_false_2 by done. rewrite list_elem_of_filter.
    tauto.
Qed.

(** C6. With an empty registry the indexing step is skipped: the filter
    keeps every record whose quartile is accepted, also one whose indexing
    flag is false.  With a non-empty registry only records whose flag is
    true pass.  The filter is a total function in both cases. *)
Theorem create_strict_dataset_degraded_mode
    (df_enhanced : list enriched) (quartile_threshold : string) :
  (forall r,
      r ∈ create_strict_dataset ∅ df_enhanced quartile_threshold <->
      r ∈ df_enhanced /\
      quartile_isin (valid_quartiles quartile_threshold) r = true)
  /\ (forall r,
      r ∈ df_enhanced ->
      e_is_scopus_indexed r = false ->
      quartile_isin (valid_quartiles quartile_threshold) r = true ->
      r ∈ create_strict_dataset ∅ df_enhanced quartile_threshold)
  /\ (forall scopus_sources : gset string,
      scopus_sources <> ∅ ->
      forall r,
        r ∈ create_strict_dataset scopus_sources df_enhanced quartile_threshold <->
        r ∈ df_enhanced /\ e_is_scopus_indexed r = true /\
        quartile_isin (valid_quartiles quartile_threshold) r = true).
Proof.
  split; [|split].
  - intros r. rewrite elem_of_create_strict_dataset, quartile_isin_spec.
    tauto.
  - intros r Hin _ Hq. apply elem_of_create_strict_dataset.
    apply quartile_isin_spec in Hq. tauto.
  - intros reg Hreg r.
    rewrite elem_of_create_strict_dataset, quartile_isin_spec. tauto.
Qed.

(** C10. Only the exact string Q3 selects the labels Q1, Q2 and Q3; any
    other threshold selects Q1 and Q2.  A record without a quartile is
    kept under neither. *)
Theorem create_strict_dataset_threshold (scopus_sources : gset string)
    (df_enhanced : list enriched) (quartile_threshold : string) (r : enriched) :
  (quartile_threshold <> "Q3" ->
   (r ∈ create_strict_dataset scopus_sources df_enhanced quartile_threshold <->
    r ∈ df_enhanced /\
    (scopus_sources = ∅ \/ e_is_scopus_indexed r = true) /\
    exists q, e_scimago_quartile r = Some q /\ q ∈ ["Q1"; "Q2"]))
  /\ (r ∈ create_strict_dataset scopus_sources df_enhanced "Q3" <->
      r ∈ df_enhanced /\
      (scopus_sources = ∅ \/ e_is_scopus_indexed r = true) /\
      exists q, e_scimago_quartile r = Some q /\ q ∈ ["Q1"; "Q2"; "Q3"])
  /\ (e_scimago_quartile r = None ->
      ~ r ∈ create_strict_dataset scopus_sources df_enhanced quartile_threshold).
Proof.
  split; [|split].
  - intros Hth. rewrite elem_of_create_strict_dataset.
    unfold valid_quartiles. by destruct (String.eqb_spec quartile_threshold "Q3").
  - by rewrite elem_of_create_strict_dataset.
  - intros Hnone Hin. apply elem_of_create_strict_dataset in Hin.
    destruct Hin as (_ & _ & q & Hq & _). congruence.
Qed.

Lemma create_strict_dataset_degraded_mode_witness :
  let r := Fixtures.candidate false (Some "Q2") in
  r ∈ create_strict_dataset ∅ [r] "Q3" /\
  ~ r ∈ create_strict_dataset {[ "12345678" ]} [r] "Q3".
Proof.
  intros r.
  destruct (create_strict_dataset_degraded_mode [r] "Q3") as (_ & Hkeep & Hreg).
  split.
  - apply Hkeep; [left|reflexivity|reflexivity].
  - intros Hin. apply Hreg in Hin; [|apply non_empty_singleton_L].
    destruct Hin as (_ & Hflag & _). discriminate Hflag.
Defined.

Lemma create_strict_dataset_threshold_witness :
  let r := Fixtures.candidate true (Some "Q3") in
  ~ r ∈ create_strict_dataset ∅ [r] "Q4" /\
  ~ r ∈ create_strict_dataset ∅ [r] "q3" /\
  r ∈ create_strict_dataset ∅ [r] "Q3".
Proof.
  intros r.
  assert (Hout : forall q : string, Fixtures.candidate true (Some "Q3") = r ->
                   e_scimago_quartile r = Some q -> ~ q ∈ ["Q1"; "Q2"]).
  { intros q _ [= <-] Hq.
    apply elem_of_cons in Hq as [Hq|Hq]; [discriminate Hq|].
    apply elem_of_cons in Hq as [Hq|Hq]; [discriminate Hq|].
    by apply elem_of_nil in Hq. }
  split; [|split].
  - intros Hin.
    apply (proj1 (create_strict_dataset_threshold ∅ [r] "Q4" r)) in Hin;
      [|discriminate].
    destruct Hin as (_ & _ & q & Hq & Hlab). by apply (Hout q).
  - intros Hin.
    apply (proj1 (create_strict_dataset_threshold ∅ [r] "q3" r)) in Hin;
      [|discriminate].
    destruct Hin as (_ & _ & q & Hq & Hlab). by apply (Hout q).
  - apply (proj1 (proj2 (create_strict_dataset_threshold ∅ [r] "Q3" r))).
    split; [left|]. split; [by left|].
    exists "Q3". split; [reflexivity|]. right; right; left.
Defined.

(** ** Concept and venue lists of a fetched document *)

(** Occurrences of a non-empty label among the display names. *)
Lemma display_names_occurrences (c : string) (entries : list (option string)) :
  c <> "" ->
  length (filter (fun d => d = c) (display_names entries)) =
  length (filter (fun d => d = Some c) entries).
Proof.
  intros Hc. unfold display_names.
  induction entries as [|d entries IH]; [done|].
  change (omap ?f (d :: entries))
    with (match f d with Some y => y :: omap f entries | None => omap f entries end).
  rewrite (filter_cons _ d). destruct d as [[|a s]|].
  - cbn [PyStr.nonempty]. rewrite decide_False by congruence. exact IH.
  - cbn [PyStr.nonempty]. rewrite filter_cons.
    destruct (decide (String a s = c)) as [E|E].
    + rewrite decide_True by congruence. cbn [length]. by rewrite IH.
    + rewrite decide_False by congruence. exact IH.
  - rewrite decide_False by congruence. exact IH.
Qed.

(** C7, as the code has it.  The concept list of a fetched document is the
    display names of its concepts followed by those of its topics, the
    empty and missing ones skipped and every entry whose lower-cased form
    is "other" removed, semicolon-joined in that order.  Nothing is
    deduplicated: a label occurs as often as it does in both lists
    together. *)
Theorem concepts_list_keeps_duplicates
    (set_iter : list string -> list string) (scopus_sources : gset string)
    (scimago_data : gmap Z (list row)) (orig : raw_record) (w : work) :
  e_concepts_list (enriched_row set_iter scopus_sources scimago_data orig w)
  = PyStr.join ";" (all_concepts w)
  /\ all_concepts w
     = filter (fun c => PyStr.lower c <> "other") (display_names (w_concepts w))
       ++ filter (fun c => PyStr.lower c <> "other") (display_names (w_topics w))
  /\ (forall c, c ∈ all_concepts w -> PyStr.lower c <> "other" /\ c <> "")
  /\ (forall c,
        c <> "" -> PyStr.lower c <> "other" ->
        length (filter (fun d => d = c) (all_concepts w))
        = length (filter (fun d => d = Some c) (w_concepts w))
          + length (filter (fun d => d = Some c) (w_topics w))).
Proof.
  split; [done|]. split; [apply filter_app|]. split.
  - intros c Hin. unfold all_concepts in Hin.
    apply list_elem_of_filter in Hin as [Hother Hin]. split; [done|].
    apply elem_of_app in Hin.
    assert (Hne : forall entries, c ∈ display_names entries -> c <> "").
    { intros entries H. unfold display_names in H.
      apply list_elem_of_omap in H as (d & _ & Hd).
      destruct d as [[|a s]|]; inversion Hd. done. }
    destruct Hin as [Hin|Hin]; by apply Hne in Hin.
  - intros c Hc Hother. unfold all_concepts.
    rewrite list_filter_filter.
    rewrite (list_filter_iff _ (fun d => d = c)).
    + rewrite filter_app, length_app.
      by rewrite !display_names_occurrences.
    + intros d. split; [tauto|]. intros ->. done.
Qed.

(** C7, counterexample.  A label present among the concepts and among the
    topics is listed twice, where a deduplicated list would give it
    once. *)
Lemma concepts_list_repeats_label :
  concepts_list_of Fixtures.paper = "Machine learning;Machine learning;Robotics" /\
  deduplicated_concepts_list Fixtures.paper = "Machine learning;Robotics" /\
  concepts_list_of Fixtures.paper <> deduplicated_concepts_list Fixtures.paper.
Proof.
  split; [vm_compute; reflexivity|]. split; [vm_compute; reflexivity|].
  vm_compute. discriminate.
Qed.

Lemma concepts_list_keeps_duplicates_witness :
  length (filter (fun d => d = "Machine learning") (all_concepts Fixtures.paper)) = 2.
Proof.
  destruct (concepts_list_keeps_duplicates Fixtures.forward ∅ ∅
              (Fixtures.raw "W1" 2022) Fixtures.paper) as (_ & _ & _ & Hcount).
  rewrite (Hcount "Machine learning"); [reflexivity|discriminate|].
  vm_compute. discriminate.
Defined.

Lemma forward_set_iteration : set_iteration Fixtures.forward.
Proof. intros l. reflexivity. Qed.

Lemma backward_set_iteration : set_iteration Fixtures.backward.
Proof. intros l. unfold Fixtures.backward. apply reverse_Permutation. Qed.

Lemma venue_issn_list_of_spec (it : list string -> list string)
    (primary_source : option venue) :
  set_iteration it ->
  NoDup (venue_issn_list_of it primary_source) /\
  forall s, s ∈ venue_issn_list_of it primary_source <->
            s <> "" /\ exists x, x ∈ raw_issn_list primary_source /\ s = normalize_issn x.
Proof.
  intros Hit. unfold venue_issn_list_of.
  set (l := map normalize_issn (raw_issn_list primary_source)).
  split.
  - apply NoDup_filter. rewrite (Hit l). apply NoDup_remove_dups.
  - intros s. rewrite list_elem_of_filter, (Hit l), elem_of_remove_dups.
    unfold l. rewrite list_elem_of_fmap.
    assert (Hs : PyStr.nonempty s = true <-> s <> "") by (by destruct s).
    rewrite Hs. split.
    + intros [H1 (x & -> & Hx)]. split; [done|]. by exists x.
    + intros [H1 (x & Hx & ->)]. split; [done|]. by exists x.
Qed.

(** C8, as the code has it.  The venue identifiers of a fetched document
    are the non-empty normalised forms of the ISSN-L and of the parts of
    the ISSN field, each once; [source_issn] holds them in the order in
    which the set is enumerated and [venue_issn_list] is their
    semicolon-join in that same order.  No sort is applied: two
    enumerations give the same identifiers up to order, and the same lists
    when they enumerate alike. *)
Theorem venue_issn_list_set_order
    (it it' : list string -> list string) (scopus_sources : gset string)
    (scimago_data : gmap Z (list row)) (orig : raw_record) (w : work) :
  set_iteration it -> set_iteration it' ->
  let e := enriched_row it scopus_sources scimago_data orig w in
  let e' := enriched_row it' scopus_sources scimago_data orig w in
  NoDup (e_source_issn e)
  /\ (forall s, s ∈ e_source_issn e <->
                s <> "" /\
                exists x, x ∈ raw_issn_list (w_primary_source w) /\ s = normalize_issn x)
  /\ e_venue_issn_list e = PyStr.join ";" (e_source_issn e)
  /\ e_source_issn e ≡ₚ e_source_issn e'
  /\ ((forall l, it l = it' l) ->
      e_source_issn e = e_source_issn e' /\ e_venue_issn_list e = e_venue_issn_list e').
Proof.
  intros Hit Hit' e e'.
  destruct (venue_issn_list_of_spec it (w_primary_source w) Hit) as [Hnodup Hmem].
  split; [exact Hnodup|]. split; [exact Hmem|]. split; [done|]. split.
  - cbn [e e' enriched_row e_source_issn]. unfold venue_issn_list_of.
    apply filter_Permutation. by rewrite (Hit _), (Hit' _).
  - intros Hsame. cbn [e e' enriched_row e_source_issn e_venue_issn_list].
    unfold venue_issn_list_of. by rewrite Hsame.
Qed.

(** C8, counterexample.  Two admissible enumerations of the same set give
    the venue identifiers of one document in different orders. *)
Lemma venue_issn_list_order_varies :
  let e := enriched_row Fixtures.forward ∅ ∅ (Fixtures.raw "W1" 2022) Fixtures.paper in
  let e' := enriched_row Fixtures.backward ∅ ∅ (Fixtures.raw "W1" 2022) Fixtures.paper in
  set_iteration Fixtures.forward /\ set_iteration Fixtures.backward /\
  e_venue_issn_list e = "12345678;87654321" /\
  e_venue_issn_list e' = "87654321;12345678" /\
  e_source_issn e <> e_source_issn e'.
Proof.
  split; [apply forward_set_iteration|]. split; [apply backward_set_iteration|].
  split; [vm_compute; reflexivity|]. split; [vm_compute; reflexivity|].
  vm_compute. discriminate.
Qed.

Lemma venue_issn_list_set_order_witness :
  let e := enriched_row Fixtures.forward ∅ ∅ (Fixtures.raw "W1" 2022) Fixtures.paper in
  let e' := enriched_row Fixtures.backward ∅ ∅ (Fixtures.raw "W1" 2022) Fixtures.paper in
  NoDup (e_source_issn e) /\ e_source_issn e ≡ₚ e_source_issn e'.
Proof.
  intros e e'.
  destruct (venue_issn_list_set_order Fixtures.forward Fixtures.backward ∅ ∅
              (Fixtures.raw "W1" 2022) Fixtures.paper
              forward_set_iteration backward_set_iteration)
    as (Hnodup & _ & _ & Hperm & _).
  split; [exact Hnodup|exact Hperm].
Defined.

Lemma load_scopus_sources_columns_witness :
  "1234567X" ∈ load_scopus_sources
                 (FileFrame [("Title", [CStr "Journal of Tests"]);
                             ("EISSN", [CNaN; CStr "1234-567x"; CStr "n/a"])]).
Proof.
  destruct load_scopus_sources_columns as (_ & _ & Hmem).
  apply Hmem.
  exists "EISSN", [CNaN; CStr "1234-567x"; CStr "n/a"], (CStr "1234-567x"), "1234-567x".
  split; [right; left|]. split; [reflexivity|]. split; [right; left|].
  split; [reflexivity|]. split; reflexivity.
Defined.

(** * Further properties of the creator *)

(** ** Normal forms of identifiers *)

Module PyStrMore.
Import PyStr PyStrFacts.

Lemma is_space_lower_char c : is_space (lower_char c) = is_space c.
Proof. destruct c as [[] [] [] [] [] [] [] []]; reflexivity. Qed.

Lemma hyphen_lower_char c :
  Ascii.eqb (lower_char c) "-" = Ascii.eqb c "-".
Proof. destruct c as [[] [] [] [] [] [] [] []]; reflexivity. Qed.

Lemma upper_lower_char c : upper_char (lower_char c) = upper_char c.
Proof. destruct c as [[] [] [] [] [] [] [] []]; reflexivity. Qed.

Lemma upper_lower s : upper (lower s) = upper s.
Proof.
  unfold upper, lower. induction s as [|c s IH]; simpl; [done|].
  by rewrite upper_lower_char, IH.
Qed.

Lemma remove_hyphen_lower s : remove "-" (lower s) = lower (remove "-" s).
Proof.
  induction s as [|c s IH]; [done|].
  change (lower (String c s)) with (String (lower_char c) (lower s)).
  rewrite !remove_hyphen_cons, hyphen_lower_char.
  destruct (Ascii.eqb c "-"); [done|].
  change (lower (String c (remove "-" s)))
    with (String (lower_char c) (lower (remove "-" s))).
  by rewrite IH.
Qed.

Lemma lstrip_lower s : lstrip (lower s) = lower (lstrip s).
Proof.
  induction s as [|c s IH]; [done|].
  change (lower (String c s)) with (String (lower_char c) (lower s)).
  simpl. rewrite is_space_lower_char. by destruct (is_space c).
Qed.

Lemma rstrip_lower s : rstrip (lower s) = lower (rstrip s).
Proof.
  induction s as [|c s IH]; [done|].
  change (lower (String c s)) with (String (lower_char c) (lower s)).
  simpl. rewrite IH, is_space_lower_char.
  destruct (rstrip s); simpl; [by destruct (is_space c)|done].
Qed.

Lemma strip_lower s : strip (lower s) = lower (strip s).
Proof. unfold strip. by rewrite lstrip_lower, rstrip_lower. Qed.

Lemma remove_hyphen_app a b :
  remove "-" (a +:+ b) = remove "-" a +:+ remove "-" b.
Proof.
  induction a as [|c a IH]; [done|].
  change (String c a +:+ b) with (String c (a +:+ b)).
  rewrite !remove_hyphen_cons, IH. by destruct (Ascii.eqb c "-").
Qed.

End PyStrMore.

(** X1. A work identifier given as an OpenAlex URL and the bare identifier
    clean to the same key; a missing identifier cleans to the empty string
    and a cleaned identifier carries no surrounding white space. *)
Theorem normalize_openalex_id_url (w : string) (x : cell) :
  normalize_openalex_id (CStr ("https://openalex.org/" +:+ w))
  = normalize_openalex_id (CStr w)
  /\ PyStr.strip (normalize_openalex_id x) = normalize_openalex_id x
  /\ (isna x = true -> normalize_openalex_id x = "").
Proof.
  split; [by destruct w|]. split.
  - destruct x as [| |s|s t]; [done|done|apply PyStrFacts.strip_idem..].
  - by destruct x.
Qed.

Lemma normalize_openalex_id_url_witness :
  normalize_openalex_id CNaN = "".
Proof.
  apply (proj2 (proj2 (normalize_openalex_id_url "" CNaN))). reflexivity.
Defined.

Lemma normalize_issn_hyphen_free x : PyStr.hyphen_free (normalize_issn x) = true.
Proof.
  assert (H : forall s,
    PyStr.hyphen_free (PyStr.upper (PyStr.strip (PyStr.remove "-" s))) = true).
  { intros s.
    assert (Hfree : PyStr.hyphen_free (PyStr.strip (PyStr.remove "-" s)) = true)
      by apply PyStrFacts.hyphen_free_strip, PyStrFacts.remove_hyphen_free.
    rewrite <- (PyStrFacts.remove_hyphen_id _ Hfree).
    rewrite <- PyStrFacts.remove_hyphen_upper.
    apply PyStrFacts.remove_hyphen_free. }
  destruct x as [| |s|s t]; [done|done|apply H..].
Qed.

Lemma normalize_issn_idem x : normalize_issn (CStr (normalize_issn x)) = normalize_issn x.
Proof. destruct x as [| |s|s t]; [done|done|apply normalize_issn_str_idem..]. Qed.

(** X2. Every result of [normalize_issn] has no hyphen, no surrounding
    white space and is left as it is by upper-casing; and every ASCII
    string with no hyphen, no surrounding white space and no lower-case
    letter is returned unchanged. *)
Theorem normalize_issn_normal_forms :
  (forall x : cell,
      PyStr.hyphen_free (normalize_issn x) = true
      /\ PyStr.strip (normalize_issn x) = normalize_issn x
      /\ PyStr.upper (normalize_issn x) = normalize_issn x)
  /\ (forall s : string,
      PyStr.is_ascii s = true ->
      PyStr.hyphen_free s = true -> PyStr.strip s = s -> PyStr.upper s = s ->
      normalize_issn (CStr s) = s).
Proof.
  split.
  - intros x. split; [apply normalize_issn_hyphen_free|].
    assert (H : forall s,
      let n := PyStr.upper (PyStr.strip (PyStr.remove "-" s)) in
      PyStr.strip n = n /\ PyStr.upper n = n).
    { intros s n. unfold n. split.
      - by rewrite PyStrFacts.strip_upper, PyStrFacts.strip_idem.
      - apply PyStrFacts.upper_idem. }
    destruct x as [| |s|s t]; [done|done|apply H..].
  - intros s _ Hfree Hstrip Hupper. unfold normalize_issn.
    by rewrite (PyStrFacts.remove_hyphen_id s Hfree), Hstrip, Hupper.
Qed.

Lemma normalize_issn_normal_forms_witness :
  normalize_issn (CStr "1234567X") = "1234567X".
Proof.
  apply (proj2 normalize_issn_normal_forms); reflexivity.
Defined.

(** X3. Normalisation ignores where hyphens stand, and, on ASCII text, the
    letter case of the input. *)
Theorem normalize_issn_hyphens_and_case (a b s : string) :
  normalize_issn (CStr (a +:+ "-" +:+ b)) = normalize_issn (CStr (a +:+ b))
  /\ (PyStr.is_ascii s = true ->
      normalize_issn (CStr (PyStr.lower s)) = normalize_issn (CStr s)
      /\ normalize_issn (CStr (PyStr.upper s)) = normalize_issn (CStr s)).
Proof.
  unfold normalize_issn. split; [|intros _; split].
  - by rewrite !PyStrMore.remove_hyphen_app.
  - by rewrite PyStrMore.remove_hyphen_lower, PyStrMore.strip_lower,
      PyStrMore.upper_lower.
  - by rewrite PyStrFacts.remove_hyphen_upper, PyStrFacts.strip_upper,
      PyStrFacts.upper_idem.
Qed.

Lemma normalize_issn_hyphens_and_case_witness :
  normalize_issn (CStr (PyStr.lower "1234-567X")) = normalize_issn (CStr "1234-567X").
Proof.
  apply (proj2 (normalize_issn_hyphens_and_case "" "" "1234-567X")). reflexivity.
Defined.

(** ** Registry and resolver *)

Lemma is_scopus_indexed_spec (scopus_sources : gset string)
    (source_issn_list : list cell) :
  is_scopus_indexed scopus_sources source_issn_list = true <->
  exists issn, issn ∈ source_issn_list /\ normalize_issn issn ∈ scopus_sources.
Proof.
  unfold is_scopus_indexed.
  destruct (decide (scopus_sources = ∅)) as [->|Hne].
  - rewrite bool_decide_eq_true_2 by done. split; [done|].
    intros (issn & _ & Hin). by apply elem_of_empty in Hin.
  - rewrite bool_decide_eq_false_2 by done.
    destruct source_issn_list as [|a l].
    + split; [done|]. intros (issn & Hin & _). by apply elem_of_nil in Hin.
    + rewrite existsb_exists. split.
      * intros (issn & Hin & Hreg). exists issn.
        apply bool_decide_eq_true in Hreg.
        split; [by apply list_elem_of_In|done].
      * intros (issn & Hin & Hreg). exists issn.
        split; [by apply list_elem_of_In|by apply bool_decide_eq_true].
Qed.

(** X4. The membership check answers true exactly when some identifier of
    the list has its normal form in the registry; an empty registry or an
    empty list always answers false. *)
Theorem is_scopus_indexed_iff (scopus_sources : gset string)
    (source_issn_list : list cell) :
  (is_scopus_indexed scopus_sources source_issn_list = true <->
   exists issn, issn ∈ source_issn_list /\ normalize_issn issn ∈ scopus_sources)
  /\ is_scopus_indexed ∅ source_issn_list = false
  /\ is_scopus_indexed scopus_sources [] = false.
Proof.
  split; [apply is_scopus_indexed_spec|]. split; [done|].
  unfold is_scopus_indexed. by destruct (bool_decide _).
Qed.

(** X5. Whatever the registry file holds, every entry of the loaded
    registry is a normal form of exactly eight characters: it has no
    hyphen and normalising it again returns it unchanged. *)
Theorem load_scopus_sources_entries (scopus_file : csv_file) (s : string) :
  s ∈ load_scopus_sources scopus_file ->
  String.length s = 8 /\ PyStr.hyphen_free s = true /\ normalize_issn (CStr s) = s.
Proof.
  destruct scopus_file as [| |df]; [intros H; by apply elem_of_empty in H..|].
  intros (col & vals & c & v & _ & _ & _ & _ & -> & Hlen)%elem_of_load_scopus_sources.
  split; [done|]. split; [apply normalize_issn_hyphen_free|apply normalize_issn_idem].
Qed.

Lemma load_scopus_sources_entries_witness :
  String.length "1234567X" = 8 /\ PyStr.hyphen_free "1234567X" = true
  /\ normalize_issn (CStr "1234567X") = "1234567X".
Proof.
  apply (load_scopus_sources_entries
           (FileFrame [("EISSN", [CStr " 1234-567x"; CStr "12-34"])])).
  vm_compute. reflexivity.
Defined.

Lemma first_some_Some {A B : Type} (f : A -> option B) (l : list A) (b : B) :
  first_some f l = Some b -> exists x, x ∈ l /\ f x = Some b.
Proof.
  induction l as [|a l IH]; [done|]. simpl.
  destruct (f a) as [b'|] eqn:E.
  - intros [= ->]. exists a. split; [left|done].
  - intros (x & Hx & Hfx)%IH. exists x. split; [by right|done].
Qed.

Lemma first_some_None {A B : Type} (f : A -> option B) (l : list A) :
  first_some f l = None <-> forall x, x ∈ l -> f x = None.
Proof.
  induction l as [|a l IH]; simpl.
  - split; [|done]. intros _ x Hx. by apply elem_of_nil in Hx.
  - destruct (f a) as [b|] eqn:E.
    + split; [done|]. intros H. specialize (H a ltac:(left)). congruence.
    + rewrite IH. split.
      * intros H x [->|Hx]%elem_of_cons; [done|by apply H].
      * intros H x Hx. apply H. by right.
Qed.

Lemma row_quartile_label r q : row_quartile r = Some q -> q ∈ quartile_labels.
Proof.
  unfold row_quartile. intros (qcol & _ & H)%first_some_Some.
  destruct (r !! qcol ≫= cell_str) as [v|]; [|done].
  destruct (isin (PyStr.strip v) quartile_labels) eqn:E; [|done].
  inversion H; subst. by apply isin_elem_of.
Qed.

Lemma get_scimago_quartile_Some (scimago_data : gmap Z (list row))
    (source_issn : cell) (publication_year : Z) (q : string) :
  get_scimago_quartile scimago_data source_issn publication_year = Some q ->
  q ∈ ["Q1"; "Q2"; "Q3"; "Q4"] /\
  normalize_issn source_issn <> "" /\
  exists df_year r,
    scimago_data !! publication_year = Some df_year /\ r ∈ df_year /\
    row_matches (normalize_issn source_issn) r = true /\
    row_quartile r = Some q.
Proof.
  rewrite get_scimago_quartile_unfold.
  destruct (truthy source_issn); [|done].
  destruct (scimago_data !! publication_year) as [df_year|]; [|done].
  destruct (String.eqb_spec (normalize_issn source_issn) "") as [|Hne]; [done|].
  unfold first_match_quartile.
  destruct (List.find _ df_year) as [r|] eqn:Efind; [|done].
  intros Hq. apply find_some in Efind as [Hin [Hm _]%andb_prop].
  split; [by apply (row_quartile_label r)|]. split; [done|].
  exists df_year, r. split; [done|]. split; [by apply list_elem_of_In|done].
Qed.

(** X6. A resolved quartile is always one of Q1 to Q4, and it is held by a
    row of the table loaded for that year which carries the non-empty
    normal form of the target; without a table for the year nothing is
    ever resolved. *)
Theorem get_scimago_quartile_sound (scimago_data : gmap Z (list row))
    (source_issn : cell) (publication_year : Z) (q : string) :
  get_scimago_quartile scimago_data source_issn publication_year = Some q ->
  q ∈ ["Q1"; "Q2"; "Q3"; "Q4"] /\
  normalize_issn source_issn <> "" /\
  exists df_year r,
    scimago_data !! publication_year = Some df_year /\ r ∈ df_year /\
    row_matches (normalize_issn source_issn) r = true /\
    row_quartile r = Some q.
Proof. apply get_scimago_quartile_Some. Qed.

Lemma get_scimago_quartile_sound_witness :
  "Q2" ∈ ["Q1"; "Q2"; "Q3"; "Q4"].
Proof.
  apply (get_scimago_quartile_sound
           {[ 2021%Z := [({[ "Issn" := CStr "12345678, 87654321";
                             "SJR Quartile" := CStr " Q2" ]} : row)] ]}
           (CStr "8765-4321") 2021 "Q2").
  vm_compute. reflexivity.
Defined.

(** X7. Resolution depends on the target only through its truth value and
    its normal form: two targets that agree on both resolve alike, in
    every table, and so do any two strings with the same normal form. *)
Theorem get_scimago_quartile_normal_form (scimago_data : gmap Z (list row))
    (x x' : cell) (s s' : string) (publication_year : Z) :
  (normalize_issn x = normalize_issn x' -> truthy x = truthy x' ->
   get_scimago_quartile scimago_data x publication_year
   = get_scimago_quartile scimago_data x' publication_year)
  /\ (normalize_issn (CStr s) = normalize_issn (CStr s') ->
      get_scimago_quartile scimago_data (CStr s) publication_year
      = get_scimago_quartile scimago_data (CStr s') publication_year).
Proof.
  split.
  - intros E Et. by rewrite !get_scimago_quartile_unfold, E, Et.
  - intros E. rewrite !get_scimago_quartile_unfold, E.
    assert (Hempty : forall t, truthy (CStr t) = false -> normalize_issn (CStr t) = "")
      by (by intros [|c t]).
    destruct (truthy (CStr s)) eqn:Es, (truthy (CStr s')) eqn:Es'; try done.
    + apply Hempty in Es'. rewrite Es'.
      by destruct (scimago_data !! publication_year).
    + apply Hempty in Es. rewrite <- E, Es.
      by destruct (scimago_data !! publication_year).
Qed.

Lemma get_scimago_quartile_normal_form_witness :
  get_scimago_quartile
    {[ 2021%Z := [({[ "Issn" := CStr "1234567X"; "Quartile" := CStr "Q3" ]} : row)] ]}
    (CStr " 1234-567x") 2021
  = get_scimago_quartile
      {[ 2021%Z := [({[ "Issn" := CStr "1234567X"; "Quartile" := CStr "Q3" ]} : row)] ]}
      (CStr "1234567X") 2021.
Proof. apply (get_scimago_quartile_normal_form _ CNone CNone). reflexivity. Defined.

(** ** The fetch loop *)

(** X8. The outcome of a call is one of four.  For the empty identifier it
    returns nothing and leaves the fetcher as it is.  For an identifier
    the memo table holds it returns the cached body, the fetcher staying
    as it is.  Otherwise it sends a request: when the source answers with
    status 200 and a body that parses, that body is returned and stored
    under the identifier; in every other case nothing is returned and
    nothing is stored.  The request is logged in both cases. *)
Theorem get_work_details_single_outcome (api : nat -> string -> response)
    (st st' : fetcher) (wid : string) (data : body) :
  get_work_details_single api st wid = (data, st') <->
  (wid = "" /\ data = BNull /\ st' = st)
  \/ (wid <> "" /\ openalex_cache st !! wid = Some data /\ st' = st)
  \/ (wid <> "" /\ openalex_cache st !! wid = None /\
      api (length (contacts st)) wid = Http 200 (Some data) /\
      st' = {| openalex_cache := <[wid := data]> (openalex_cache st);
               contacts := contacts st ++ [wid] |})
  \/ (wid <> "" /\ openalex_cache st !! wid = None /\
      (forall b, api (length (contacts st)) wid <> Http 200 (Some b)) /\
      data = BNull /\
      st' = {| openalex_cache := openalex_cache st;
               contacts := contacts st ++ [wid] |}).
Proof.
  destruct (get_work_details_single_cases api st wid)
    as [[Hw H]|[(Hw & d & Hd & H)|(Hw & Hnone & [(d & Hapi & H)|[Hfail H]])]];
    rewrite H; split.
  - intros [= <- <-]. by left.
  - intros [(_ & -> & ->)|[(? & _)|[(? & _)|(? & _)]]]; done.
  - intros [= <- <-]. right; left. done.
  - intros [(? & _)|[(_ & Hc & ->)|[(_ & Hc & _)|(_ & Hc & _)]]];
      [done| |congruence..]. congruence.
  - intros [= <- <-]. right; right; left. done.
  - intros [(? & _)|[(_ & Hc & _)|[(_ & _ & Hr & ->)|(_ & _ & Hf & _)]]];
      [done|congruence| |].
    + rewrite Hapi in Hr. by inversion Hr.
    + by destruct (Hf d).
  - intros [= <- <-]. right; right; right. done.
  - intros [(? & _)|[(_ & Hc & _)|[(_ & _ & Hr & _)|(_ & _ & _ & -> & ->)]]];
      [done|congruence| |done].
    by destruct (Hfail data).
Qed.

Lemma get_work_details_single_outcome_witness :
  get_work_details_single Fixtures.flaky_api
    {| openalex_cache := ∅; contacts := ["W0"] |} "W1"
  = (BDocument Fixtures.paper_json,
     {| openalex_cache := {[ "W1" := BDocument Fixtures.paper_json ]};
        contacts := ["W0"; "W1"] |}).
Proof.
  apply get_work_details_single_outcome. right; right; left.
  split; [discriminate|]. split; [reflexivity|]. split; reflexivity.
Defined.

(** X9. The fetch loop keeps one entry per record, in record order.  It
    only appends to the request log, and what it appends is a subsequence
    of the identifiers it was given: at most one request per record, none
    for the empty identifier and none for an identifier the memo table
    already held. *)
Theorem fetch_all_requests (api : nat -> string -> response) (ids : list string) :
  forall st : fetcher,
    map fst (fetch_all api st ids).1 = ids /\
    exists new,
      contacts (fetch_all api st ids).2 = contacts st ++ new /\
      new `sublist_of` ids /\
      ~ "" ∈ new /\
      forall wid, is_Some (openalex_cache st !! wid) -> ~ wid ∈ new.
Proof.
  intros st. split; [apply fetch_all_ids|]. revert st.
  induction ids as [|wid ids IH]; intros st.
  - exists []. simpl. rewrite app_nil_r.
    split; [done|]. split; [done|]. split; [apply not_elem_of_nil|].
    intros k _. apply not_elem_of_nil.
  - simpl.
    pose proof (get_work_details_single_cases api st wid) as Hcases.
    pose proof (get_work_details_single_keeps api st wid) as Hkeep.
    destruct (get_work_details_single api st wid) as [detail st1].
    destruct (IH st1) as (new & Hlog & Hsub & Hempty & Hcached).
    destruct (fetch_all api st1 ids) as [details st2]. simpl in *.
    assert (Hnew : forall k, is_Some (openalex_cache st !! k) -> ~ k ∈ new).
    { intros k [d Hk]. apply Hcached. exists d. by apply Hkeep. }
    assert (Hsent : wid <> "" -> openalex_cache st !! wid = None ->
              contacts st1 = contacts st ++ [wid] ->
              exists new0,
                contacts st2 = contacts st ++ new0 /\ new0 `sublist_of` wid :: ids /\
                ~ "" ∈ new0 /\
                forall k, is_Some (openalex_cache st !! k) -> ~ k ∈ new0).
    { intros Hw Hnone Hst1. exists (wid :: new).
      rewrite Hlog, Hst1, <- app_assoc.
      split; [done|]. split; [by apply sublist_skip|]. split.
      - intros [E|H]%elem_of_cons; [by symmetry in E|done].
      - intros k Hk [->|H]%elem_of_cons; [|by apply (Hnew k)].
        destruct Hk as [? Hk]. congruence. }
    destruct Hcases
      as [[_ H]|[(_ & d & _ & H)|(Hw & Hnone & [(d & _ & H)|[_ H]])]];
      inversion H; subst; clear H.
    + exists new. split; [done|]. split; [by apply sublist_cons|done].
    + exists new. split; [done|]. split; [by apply sublist_cons|done].
    + by apply Hsent.
    + by apply Hsent.
Qed.

Lemma fetch_all_requests_witness :
  map fst (fetch_all Fixtures.flaky_api Fixtures.empty_fetcher ["W1"; ""; "W1"]).1
  = ["W1"; ""; "W1"].
Proof.
  apply (proj1 (fetch_all_requests Fixtures.flaky_api ["W1"; ""; "W1"]
                  Fixtures.empty_fetcher)).
Defined.

Lemma fetch_all_cached_ids (api : nat -> string -> response) (ids : list string) :
  forall (st : fetcher) (k : string),
    is_Some (openalex_cache (fetch_all api st ids).2 !! k) ->
    is_Some (openalex_cache st !! k) \/ (k ∈ ids /\ k <> "").
Proof.
  induction ids as [|wid ids IH]; intros st k; [by left|]. simpl.
  pose proof (get_work_details_single_cases api st wid) as Hcases.
  destruct (get_work_details_single api st wid) as [detail st1].
  specialize (IH st1 k).
  destruct (fetch_all api st1 ids) as [details st2]. simpl in *.
  intros [H|[H Hk]]%IH; [|right; split; [by right|done]].
  destruct Hcases
    as [[_ E]|[(_ & d & _ & E)|(Hw & Hnone & [(d & _ & E)|[_ E]])]];
    inversion E; subst; clear E; try by left.
  simpl in H. destruct (decide (wid = k)) as [->|Hne].
  - right. split; [left|done].
  - left. by rewrite lookup_insert_ne in H.
Qed.

(** X10. The fetch loop never drops nor replaces an entry of the memo
    table, and every entry it adds is filed under a non-empty identifier
    taken from the records it was given. *)
Theorem fetch_all_cache (api : nat -> string -> response) (st : fetcher)
    (ids : list string) :
  openalex_cache st ⊆ openalex_cache (fetch_all api st ids).2 /\
  forall wid, is_Some (openalex_cache (fetch_all api st ids).2 !! wid) ->
              is_Some (openalex_cache st !! wid) \/ (wid ∈ ids /\ wid <> "").
Proof.
  split; [|apply fetch_all_cached_ids].
  apply map_subseteq_spec. intros k d Hk. by apply fetch_all_keeps.
Qed.

Lemma fetch_all_cache_witness :
  is_Some (openalex_cache Fixtures.empty_fetcher !! "W1")
  \/ ("W1" ∈ ["W1"; ""; "W1"] /\ "W1" <> "").
Proof.
  apply (proj2 (fetch_all_cache Fixtures.flaky_api Fixtures.empty_fetcher
                  ["W1"; ""; "W1"]) "W1").
  vm_compute. by eexists.
Defined.

Lemma fetch_all_detail_cached (api : nat -> string -> response) (ids : list string) :
  forall (st : fetcher) (wid : string) (data : body),
    (wid, data) ∈ (fetch_all api st ids).1 ->
    data <> BNull ->
    openalex_cache (fetch_all api st ids).2 !! wid = Some data.
Proof.
  induction ids as [|id ids IH]; intros st wid data; simpl.
  - intros H. by apply elem_of_nil in H.
  - pose proof (get_work_details_single_stores api st id) as Hstore.
    destruct (get_work_details_single api st id) as [detail st1].
    pose proof (fetch_all_keeps api ids st1 wid data) as Hkeep.
    specialize (IH st1 wid data).
    destruct (fetch_all api st1 ids) as [details st2]. simpl in *.
    intros [[= <- <-]|H]%elem_of_cons Hdata; [|by apply IH].
    apply Hkeep. by destruct (Hstore data st1 eq_refl Hdata).
Qed.

(** X11. Within one pass of the fetch loop every body other than null
    handed out for an identifier is the one the memo table holds for it at
    the end, so two records that share an identifier and both get such a
    body get the same one, whatever the source would answer later. *)
Theorem fetch_all_consistent (api : nat -> string -> response) (st : fetcher)
    (ids : list string) (wid : string) (data data' : body) :
  (wid, data) ∈ (fetch_all api st ids).1 ->
  (wid, data') ∈ (fetch_all api st ids).1 ->
  data <> BNull -> data' <> BNull ->
  openalex_cache (fetch_all api st ids).2 !! wid = Some data /\ data = data'.
Proof.
  intros H H' Hd Hd'. apply fetch_all_detail_cached in H, H'; [|done..].
  split; [done|]. congruence.
Qed.

Lemma fetch_all_consistent_witness :
  openalex_cache
    (fetch_all Fixtures.flaky_api Fixtures.empty_fetcher ["W1"; "W1"; "W1"]).2
    !! "W1" = Some (BDocument Fixtures.paper_json)
  /\ BDocument Fixtures.paper_json = BDocument Fixtures.paper_json.
Proof.
  apply (fetch_all_consistent Fixtures.flaky_api Fixtures.empty_fetcher
           ["W1"; "W1"; "W1"] "W1"
           (BDocument Fixtures.paper_json) (BDocument Fixtures.paper_json)).
  - right. left.
  - right. right. left.
  - discriminate.
  - discriminate.
Defined.

(** X20. A pass of the fetch loop over identifiers that are all empty or
    already in the memo table sends no request and leaves the fetcher as
    it is: each record gets the cached body (nothing for the empty
    identifier), whatever the source would answer. *)
Theorem fetch_all_warm (api : nat -> string -> response) (st : fetcher)
    (ids : list string) :
  (forall wid, wid ∈ ids -> wid = "" \/ is_Some (openalex_cache st !! wid)) ->
  fetch_all api st ids
  = (map (fun wid => (wid, if PyStr.nonempty wid
                           then default BNull (openalex_cache st !! wid)
                           else BNull)) ids,
     st).
Proof.
  induction ids as [|wid ids IH]; intros Hall; [done|]. simpl.
  assert (Hhead : get_work_details_single api st wid
                  = (if PyStr.nonempty wid
                     then default BNull (openalex_cache st !! wid) else BNull,
                     st)).
  { destruct (Hall wid) as [->|[d Hd]]; [left|done|].
    unfold get_work_details_single.
    destruct (PyStr.nonempty wid); simpl; [by rewrite Hd|done]. }
  rewrite Hhead, IH; [done|]. intros k Hk. apply Hall. by right.
Qed.

Lemma fetch_all_warm_witness :
  fetch_all Fixtures.down_api
    {| openalex_cache := {[ "W1" := BDocument Fixtures.paper_json ]};
       contacts := ["W1"] |}
    ["W1"; ""; "W1"]
  = ([("W1", BDocument Fixtures.paper_json); ("", BNull);
      ("W1", BDocument Fixtures.paper_json)],
     {| openalex_cache := {[ "W1" := BDocument Fixtures.paper_json ]};
        contacts := ["W1"] |}).
Proof.
  rewrite (fetch_all_warm Fixtures.down_api
             {| openalex_cache := {[ "W1" := BDocument Fixtures.paper_json ]};
                contacts := ["W1"] |}
             ["W1"; ""; "W1"]); [vm_compute; reflexivity|].
  intros wid [->|[->|[->|H]%elem_of_cons]%elem_of_cons]%elem_of_cons.
  - right. by eexists.
  - by left.
  - right. by eexists.
  - by apply elem_of_nil in H.
Defined.

(** ** The enriched table *)

(** Where each row of a returned table comes from. *)
Lemma enhance_all_dataset_rows
    (set_iter : list string -> list string) (scopus_sources : gset string)
    (scimago_data : gmap Z (list row)) (api : nat -> string -> response)
    (st : fetcher) (df_all : list raw_record) (df_enhanced : list enriched)
    (e : enriched) :
  (enhance_all_dataset set_iter scopus_sources scimago_data api st df_all).1
  = inr df_enhanced ->
  e ∈ df_enhanced ->
  exists orig,
    orig ∈ df_all /\
    (e = coerce_numeric (fallback_row orig)
     \/ exists wid d w,
          (wid, BDocument d)
          ∈ (fetch_all api st
               (map (fun r => normalize_openalex_id (work_id r)) df_all)).1 /\
          read_document d = inr w /\
          e = coerce_numeric
                (enriched_row set_iter scopus_sources scimago_data orig w)).
Proof.
  intros Hinr He.
  destruct (enhance_all_dataset_outcome set_iter scopus_sources scimago_data
              api st df_all) as [_ Hrows].
  destruct (Hrows df_enhanced Hinr) as (rows & -> & Hall).
  apply list_elem_of_fmap in He as (e0 & -> & He0).
  apply list_elem_of_lookup in He0 as [i Hi].
  destruct (Forall2_lookup_r _ _ _ _ _ Hall Hi) as ([wid b] & Hentry & Hpw).
  apply list_elem_of_lookup_2 in Hentry.
  destruct (works_details_found api st df_all wid b Hentry) as [orig Horig].
  pose proof (process_work_found set_iter scopus_sources scimago_data df_all
                wid b orig Horig) as Hfound.
  rewrite Hpw in Hfound. destruct Hfound as (_ & Hfall & Hdoc).
  exists orig. split; [by apply original_row_elem in Horig as [? _]|].
  destruct (body_truth b) eqn:Hb.
  - right. destruct (Hdoc eq_refl) as (d & w & -> & Hread & ->).
    by exists wid, d, w.
  - left. by rewrite (Hfall eq_refl).
Qed.

(** The row of a record whose fetch gave nothing, in a returned table. *)
Lemma enhance_all_dataset_absent_row
    (set_iter : list string -> list string) (scopus_sources : gset string)
    (scimago_data : gmap Z (list row)) (api : nat -> string -> response)
    (st : fetcher) (df_all : list raw_record) (df_enhanced : list enriched)
    (i : nat) (wid : string) (b : body) :
  (enhance_all_dataset set_iter scopus_sources scimago_data api st df_all).1
  = inr df_enhanced ->
  (fetch_all api st (map (fun r => normalize_openalex_id (work_id r)) df_all)).1
    !! i = Some (wid, b) ->
  body_truth b = false ->
  exists orig,
    original_row df_all wid = Some orig /\
    df_enhanced !! i = Some (coerce_numeric (fallback_row orig)).
Proof.
  intros Hinr Hentry Hfalsy.
  destruct (enhance_all_dataset_outcome set_iter scopus_sources scimago_data
              api st df_all) as [_ Hrows].
  destruct (Hrows df_enhanced Hinr) as (rows & -> & Hall).
  destruct (Forall2_lookup_l _ _ _ _ _ Hall Hentry) as (e & He & Hpw).
  destruct (works_details_found api st df_all wid b) as [orig Horig].
  { by apply list_elem_of_lookup_2 in Hentry. }
  pose proof (process_work_found set_iter scopus_sources scimago_data df_all
                wid b orig Horig) as Hfound.
  rewrite Hpw in Hfound. destruct Hfound as (_ & Hfall & _).
  exists orig. split; [done|].
  by rewrite list_lookup_fmap, He, (Hfall Hfalsy).
Qed.

Lemma resolve_quartile_Some (scimago_data : gmap Z (list row))
    (issn_list : list string) (pub_year : option Z) (q : string) :
  resolve_quartile scimago_data issn_list pub_year = Some q ->
  exists y s,
    pub_year = Some y /\ y <> 0%Z /\ s ∈ issn_list /\
    get_scimago_quartile scimago_data (CStr s) y = Some q.
Proof.
  unfold resolve_quartile. destruct pub_year as [y|]; [|done].
  destruct (Z.eqb_spec y 0) as [|Hy]; [done|].
  intros (s & Hs & Hget)%first_some_Some. by exists y, s.
Qed.

(** X12. Every row of a returned enriched table that carries a quartile
    carries one of Q1 to Q4, has a non-zero publication year for which a
    ranking table is loaded, and lists a venue identifier that resolves to
    that quartile in that year; it was built from a fetched document,
    never from raw fields alone. *)
Theorem enhance_all_dataset_quartile
    (set_iter : list string -> list string) (scopus_sources : gset string)
    (scimago_data : gmap Z (list row)) (api : nat -> string -> response)
    (st : fetcher) (df_all : list raw_record) (df_enhanced : list enriched)
    (e : enriched) (q : string) :
  (enhance_all_dataset set_iter scopus_sources scimago_data api st df_all).1
  = inr df_enhanced ->
  e ∈ df_enhanced ->
  e_scimago_quartile e = Some q ->
  q ∈ ["Q1"; "Q2"; "Q3"; "Q4"] /\
  (exists y s,
      e_publication_year e = Some y /\ y <> 0%Z /\
      is_Some (scimago_data !! y) /\ s ∈ e_source_issn e /\
      get_scimago_quartile scimago_data (CStr s) y = Some q) /\
  exists orig wid d w,
    orig ∈ df_all /\
    (wid, BDocument d)
    ∈ (fetch_all api st
         (map (fun r => normalize_openalex_id (work_id r)) df_all)).1 /\
    read_document d = inr w /\
    e = coerce_numeric (enriched_row set_iter scopus_sources scimago_data orig w).
Proof.
  intros Hinr He Hq.
  destruct (enhance_all_dataset_rows _ _ _ _ _ _ _ _ Hinr He)
    as (orig & Hin & [->|(wid & d & w & Hentry & Hread & ->)]); [done|].
  cbn [coerce_numeric enriched_row e_scimago_quartile] in Hq.
  apply resolve_quartile_Some in Hq as (y & s & Hy & Hy0 & Hs & Hget).
  pose proof (get_scimago_quartile_Some _ _ _ _ Hget)
    as (Hlab & _ & rows & r & Hrows & _).
  split; [done|]. split; [|by exists orig, wid, d, w].
  exists y, s. cbn [coerce_numeric enriched_row e_publication_year e_source_issn].
  split; [done|]. split; [done|]. split; [by exists rows|done].
Qed.

Lemma enhance_all_dataset_quartile_witness :
  "Q2" ∈ ["Q1"; "Q2"; "Q3"; "Q4"].
Proof.
  pose (data := ({[ 2022%Z := [({[ "Issn" := CStr "87654321, 12345678";
                                   "SJR Quartile" := CStr "Q2" ]} : row)] ]}
                 : gmap Z (list row))).
  pose (e := coerce_numeric
               (enriched_row Fixtures.forward ∅ data (Fixtures.raw "W1" 2022)
                             Fixtures.paper)).
  apply (enhance_all_dataset_quartile Fixtures.forward ∅ data Fixtures.flaky_api
           Fixtures.empty_fetcher [Fixtures.raw "W1" 2022; Fixtures.raw "W1" 2022]
           [coerce_numeric (fallback_row (Fixtures.raw "W1" 2022)); e]
           e "Q2").
  - vm_compute. reflexivity.
  - right. left.
  - vm_compute. reflexivity.
Defined.

(** X13. When every fetched body is readable, the enricher returns a
    table aligned with the raw table: the row at a record's position
    carries a work identifier that cleans to the record's own, a citation
    count that is never missing, and the collaboration fields of the
    first raw record with that cleaned identifier (their defaults where
    the column is missing), whether or not the fetch gave a document. *)
Theorem enhance_all_dataset_aligned
    (set_iter : list string -> list string) (scopus_sources : gset string)
    (scimago_data : gmap Z (list row)) (api : nat -> string -> response)
    (st : fetcher) (df_all : list raw_record) :
  (forall wid b,
      (wid, b) ∈ (fetch_all api st
                    (map (fun r => normalize_openalex_id (work_id r)) df_all)).1 ->
      readable b = true) ->
  exists df_enhanced,
    (enhance_all_dataset set_iter scopus_sources scimago_data api st df_all).1
    = inr df_enhanced /\
    forall i r,
      df_all !! i = Some r ->
      exists orig e,
        original_row df_all (normalize_openalex_id (work_id r)) = Some orig /\
        df_enhanced !! i = Some e /\
        e_work_id e = work_id orig /\
        normalize_openalex_id (e_work_id e) = normalize_openalex_id (work_id r) /\
        is_Some (e_cited_by_count e) /\
        e_multi_institution e = get_default (multi_institution orig) false /\
        e_multi_country e = get_default (multi_country orig) false /\
        e_authors_count e = get_default (authors_count orig) 0%Z /\
        e_institutions_count e = get_default (institutions_count orig) 0%Z.
Proof.
  intros Hreadable.
  set (work_ids := map (fun r => normalize_openalex_id (work_id r)) df_all) in *.
  destruct (enhance_all_dataset_outcome set_iter scopus_sources scimago_data
              api st df_all) as [Hreturns Hrows].
  destruct (proj1 Hreturns Hreadable) as [df_enhanced Hinr].
  exists df_enhanced. split; [done|].
  destruct (Hrows df_enhanced Hinr) as (rows & -> & Hall).
  intros i r Hi.
  destruct (original_row_found df_all r) as (orig & Horig & Hsame).
  { by apply list_elem_of_lookup_2 in Hi. }
  assert (Hentry : exists b,
             (fetch_all api st work_ids).1 !! i
             = Some (normalize_openalex_id (work_id r), b)).
  { assert (Hw : work_ids !! i = Some (normalize_openalex_id (work_id r))).
    { unfold work_ids. by rewrite list_lookup_fmap, Hi. }
    rewrite <- (fetch_all_ids api work_ids st), list_lookup_fmap in Hw.
    destruct ((fetch_all api st work_ids).1 !! i) as [[wid b]|]; [|done].
    inversion Hw; subst. by exists b. }
  destruct Hentry as [b Hentry].
  destruct (Forall2_lookup_l _ _ _ _ _ Hall Hentry) as (e & He & Hpw).
  pose proof (process_work_found set_iter scopus_sources scimago_data df_all
                _ b orig Horig) as Hfound.
  rewrite Hpw in Hfound. destruct Hfound as (_ & Hfall & Hdoc).
  exists orig, (coerce_numeric e).
  split; [done|]. split; [by rewrite list_lookup_fmap, He|].
  destruct (body_truth b).
  - destruct (Hdoc eq_refl) as (d & w & _ & _ & ->).
    cbn [coerce_numeric enriched_row e_work_id e_cited_by_count
         e_multi_institution e_multi_country e_authors_count e_institutions_count].
    repeat (split; [done|]). done.
  - rewrite (Hfall eq_refl).
    cbn [coerce_numeric fallback_row e_work_id e_cited_by_count
         e_multi_institution e_multi_country e_authors_count e_institutions_count].
    repeat (split; [done|]). done.
Qed.

Lemma enhance_all_dataset_aligned_witness :
  exists df_enhanced e,
    (enhance_all_dataset Fixtures.forward ∅ ∅ Fixtures.flaky_api
       Fixtures.empty_fetcher
       [Fixtures.raw "W1" 2021; Fixtures.raw "https://openalex.org/W1" 2022]).1
    = inr df_enhanced /\
    df_enhanced !! 1 = Some e /\
    is_Some (e_cited_by_count e).
Proof.
  destruct (enhance_all_dataset_aligned Fixtures.forward ∅ ∅ Fixtures.flaky_api
              Fixtures.empty_fetcher
              [Fixtures.raw "W1" 2021; Fixtures.raw "https://openalex.org/W1" 2022])
    as (df_enhanced & Hinr & Hrow).
  { intros wid b H. apply list_elem_of_In in H. vm_compute in H.
    destruct H as [[= <- <-]|[[= <- <-]|[]]]; reflexivity. }
  destruct (Hrow 1 (Fixtures.raw "https://openalex.org/W1" 2022) eq_refl)
    as (orig & e & _ & He & _ & _ & Hc & _).
  exists df_enhanced, e. split; [exact Hinr|]. split; [exact He|exact Hc].
Defined.

(** X14. For a fetched document the indexing flag is true exactly when one
    of the identifiers collected from the venue has a non-empty normal
    form that the registry holds; the flag therefore does not depend on
    the order in which the set of identifiers is enumerated. *)
Theorem enriched_row_indexed
    (it it' : list string -> list string) (scopus_sources : gset string)
    (scimago_data : gmap Z (list row)) (orig : raw_record) (w : work) :
  set_iteration it -> set_iteration it' ->
  (e_is_scopus_indexed (enriched_row it scopus_sources scimago_data orig w) = true
   <-> exists x, x ∈ raw_issn_list (w_primary_source w) /\
                 normalize_issn x <> "" /\ normalize_issn x ∈ scopus_sources)
  /\ e_is_scopus_indexed (enriched_row it scopus_sources scimago_data orig w)
     = e_is_scopus_indexed (enriched_row it' scopus_sources scimago_data orig w).
Proof.
  intros Hit Hit'.
  assert (Hflag : forall en, set_iteration en ->
            e_is_scopus_indexed (enriched_row en scopus_sources scimago_data orig w)
            = true
            <-> exists x, x ∈ raw_issn_list (w_primary_source w) /\
                          normalize_issn x <> "" /\ normalize_issn x ∈ scopus_sources).
  { intros en Hen. cbn [enriched_row e_is_scopus_indexed].
    rewrite is_scopus_indexed_spec.
    destruct (venue_issn_list_of_spec en (w_primary_source w) Hen) as [_ Hmem].
    split.
    - intros (c & (s & -> & Hs)%list_elem_of_fmap & Hreg).
      apply Hmem in Hs as (Hne & x & Hx & ->).
      rewrite normalize_issn_idem in Hreg. by exists x.
    - intros (x & Hx & Hne & Hreg). exists (CStr (normalize_issn x)). split.
      + apply list_elem_of_fmap. exists (normalize_issn x). split; [done|].
        apply Hmem. split; [done|]. by exists x.
      + by rewrite normalize_issn_idem. }
  split; [by apply Hflag|].
  destruct (e_is_scopus_indexed (enriched_row it _ _ _ _)) eqn:E1,
           (e_is_scopus_indexed (enriched_row it' _ _ _ _)) eqn:E2; try done.
  - apply (Hflag it Hit) in E1. apply (Hflag it' Hit') in E1. congruence.
  - apply (Hflag it' Hit') in E2. apply (Hflag it Hit) in E2. congruence.
Qed.

Lemma enriched_row_indexed_witness :
  e_is_scopus_indexed
    (enriched_row Fixtures.forward {[ "87654321" ]} ∅ (Fixtures.raw "W1" 2022)
                  Fixtures.paper)
  = e_is_scopus_indexed
      (enriched_row Fixtures.backward {[ "87654321" ]} ∅ (Fixtures.raw "W1" 2022)
                    Fixtures.paper).
Proof.
  apply (enriched_row_indexed Fixtures.forward Fixtures.backward).
  - apply forward_set_iteration.
  - apply backward_set_iteration.
Defined.

(** X15. Whether a fetched document gets a quartile does not depend on the
    order in which the set of venue identifiers is enumerated: it gets
    none exactly when none of its identifiers resolves in its year. *)
Theorem enriched_row_quartile_presence
    (it it' : list string -> list string) (scopus_sources : gset string)
    (scimago_data : gmap Z (list row)) (orig : raw_record) (w : work) :
  set_iteration it -> set_iteration it' ->
  e_scimago_quartile (enriched_row it scopus_sources scimago_data orig w) = None
  <-> e_scimago_quartile (enriched_row it' scopus_sources scimago_data orig w) = None.
Proof.
  intros Hit Hit'. cbn [enriched_row e_scimago_quartile].
  unfold resolve_quartile.
  destruct (or_int (w_publication_year w) (publication_year orig)) as [y|]; [|done].
  destruct (Z.eqb y 0); [done|].
  rewrite !first_some_None.
  assert (Hperm : venue_issn_list_of it (w_primary_source w)
                  ≡ₚ venue_issn_list_of it' (w_primary_source w)).
  { unfold venue_issn_list_of. apply filter_Permutation.
    by rewrite (Hit _), (Hit' _). }
  split; intros H s Hs; apply H.
  - by rewrite Hperm.
  - by rewrite <- Hperm.
Qed.

Lemma enriched_row_quartile_presence_witness :
  e_scimago_quartile
    (enriched_row Fixtures.forward ∅ ∅ (Fixtures.raw "W1" 2022) Fixtures.paper) = None
  <-> e_scimago_quartile
    (enriched_row Fixtures.backward ∅ ∅ (Fixtures.raw "W1" 2022) Fixtures.paper) = None.
Proof.
  apply (enriched_row_quartile_presence Fixtures.forward Fixtures.backward).
  - apply forward_set_iteration.
  - apply backward_set_iteration.
Defined.

(** ** The corpus filter *)

Lemma filter_idem {A : Type} (P : A -> Prop) `{!forall x, Decision (P x)}
    (l : list A) :
  filter P (filter P l) = filter P l.
Proof. rewrite list_filter_filter. apply list_filter_iff. tauto. Qed.

Lemma filter_comm {A : Type} (P Q : A -> Prop)
    `{!forall x, Decision (P x), !forall x, Decision (Q x)} (l : list A) :
  filter P (filter Q l) = filter Q (filter P l).
Proof. rewrite !list_filter_filter. apply list_filter_iff. tauto. Qed.

(** The filter as one pass over the table. *)
Lemma create_strict_dataset_filter (scopus_sources : gset string)
    (df_enhanced : list enriched) (quartile_threshold : string) :
  create_strict_dataset scopus_sources df_enhanced quartile_threshold
  = filter (fun r => (scopus_sources = ∅ \/ e_is_scopus_indexed r = true)
                     /\ quartile_isin (valid_quartiles quartile_threshold) r = true)
           df_enhanced.
Proof.
  unfold create_strict_dataset.
  destruct (decide (scopus_sources = ∅)) as [E|E].
  - rewrite bool_decide_eq_true_2 by done. apply list_filter_iff. tauto.
  - rewrite bool_decide_eq_false_2 by done. rewrite list_filter_filter.
    apply list_filter_iff. tauto.
Qed.

(** X16. Filtering is idempotent: filtering a strict table again, with the
    same registry and threshold, returns it unchanged. *)
Theorem create_strict_dataset_idempotent (scopus_sources : gset string)
    (df_enhanced : list enriched) (quartile_threshold : string) :
  create_strict_dataset scopus_sources
    (create_strict_dataset scopus_sources df_enhanced quartile_threshold)
    quartile_threshold
  = create_strict_dataset scopus_sources df_enhanced quartile_threshold.
Proof. rewrite !create_strict_dataset_filter. apply filter_idem. Qed.

(** X17. The strict table is a subsequence of the enriched table: rows
    are kept or dropped one by one, never reordered, merged or repeated,
    so filtering two tables put end to end gives the two strict tables put
    end to end. *)
Theorem create_strict_dataset_rows (scopus_sources : gset string)
    (df1 df2 : list enriched) (quartile_threshold : string) :
  create_strict_dataset scopus_sources df1 quartile_threshold `sublist_of` df1
  /\ length (create_strict_dataset scopus_sources df1 quartile_threshold)
     <= length df1
  /\ create_strict_dataset scopus_sources (df1 ++ df2) quartile_threshold
     = create_strict_dataset scopus_sources df1 quartile_threshold
       ++ create_strict_dataset scopus_sources df2 quartile_threshold.
Proof.
  rewrite !create_strict_dataset_filter.
  split; [apply sublist_filter|].
  split; [apply sublist_length, sublist_filter|apply filter_app].
Qed.

Lemma valid_quartiles_Q3 (quartile_threshold q : string) :
  q ∈ valid_quartiles quartile_threshold -> q ∈ valid_quartiles "Q3".
Proof.
  unfold valid_quartiles. destruct (String.eqb quartile_threshold "Q3"); [done|].
  simpl. intros [->|[->|H]%elem_of_cons]%elem_of_cons.
  - left.
  - right; left.
  - by apply elem_of_nil in H.
Qed.

(** X18. The policies are nested: whatever the threshold, the strict table
    is what the same threshold keeps of the Q3 strict table, and of the
    table filtered without a registry; it is a subsequence of both. *)
Theorem create_strict_dataset_nested (scopus_sources : gset string)
    (df_enhanced : list enriched) (quartile_threshold : string) :
  create_strict_dataset scopus_sources df_enhanced quartile_threshold
  = create_strict_dataset scopus_sources
      (create_strict_dataset scopus_sources df_enhanced "Q3") quartile_threshold
  /\ create_strict_dataset scopus_sources df_enhanced quartile_threshold
     = create_strict_dataset scopus_sources
         (create_strict_dataset ∅ df_enhanced quartile_threshold) quartile_threshold
  /\ create_strict_dataset scopus_sources df_enhanced quartile_threshold
     `sublist_of` create_strict_dataset scopus_sources df_enhanced "Q3"
  /\ create_strict_dataset scopus_sources df_enhanced quartile_threshold
     `sublist_of` create_strict_dataset ∅ df_enhanced quartile_threshold.
Proof.
  assert (H1 : create_strict_dataset scopus_sources df_enhanced quartile_threshold
    = create_strict_dataset scopus_sources
        (create_strict_dataset scopus_sources df_enhanced "Q3") quartile_threshold).
  { rewrite !create_strict_dataset_filter, list_filter_filter.
    apply list_filter_iff. intros r. rewrite !quartile_isin_spec.
    split; [|tauto]. intros (Hreg & q & Hq & Hlab).
    repeat split; try done; exists q; split; try done.
    by apply (valid_quartiles_Q3 quartile_threshold). }
  assert (H2 : create_strict_dataset scopus_sources df_enhanced quartile_threshold
    = create_strict_dataset scopus_sources
        (create_strict_dataset ∅ df_enhanced quartile_threshold) quartile_threshold).
  { rewrite !create_strict_dataset_filter, list_filter_filter.
    apply list_filter_iff. intros r. split; [|tauto].
    intros [Hreg Hq]. repeat split; try done. by left. }
  split; [exact H1|]. split; [exact H2|]. split.
  - rewrite H1 at 1. rewrite (create_strict_dataset_filter _ (create_strict_dataset _ _ "Q3")).
    apply sublist_filter.
  - rewrite H2 at 1.
    rewrite (create_strict_dataset_filter _ (create_strict_dataset ∅ _ _)).
    apply sublist_filter.
Qed.

(** X19. The two steps chained as the driver chains them: in the strict
    table computed from a returned enriched table, every row carries an
    accepted quartile and was built from a fetched document, so the row
    of a record whose fetch gave nothing never reaches the strict table;
    with a non-empty registry every strict row is flagged as indexed, and
    with an empty registry no row of the enriched table is. *)
Theorem create_strict_dataset_of_enhanced
    (set_iter : list string -> list string) (scopus_sources : gset string)
    (scimago_data : gmap Z (list row)) (api : nat -> string -> response)
    (st : fetcher) (df_all : list raw_record) (df_enhanced : list enriched)
    (quartile_threshold : string) :
  (enhance_all_dataset set_iter scopus_sources scimago_data api st df_all).1
  = inr df_enhanced ->
  let works_details :=
    (fetch_all api st (map (fun r => normalize_openalex_id (work_id r)) df_all)).1 in
  let df_strict :=
    create_strict_dataset scopus_sources df_enhanced quartile_threshold in
  df_strict `sublist_of` df_enhanced
  /\ (forall e, e ∈ df_strict ->
        (exists q, e_scimago_quartile e = Some q
                   /\ q ∈ valid_quartiles quartile_threshold)
        /\ (scopus_sources <> ∅ -> e_is_scopus_indexed e = true)
        /\ exists orig wid d w,
             orig ∈ df_all /\ (wid, BDocument d) ∈ works_details /\
             read_document d = inr w /\
             e = coerce_numeric
                   (enriched_row set_iter scopus_sources scimago_data orig w))
  /\ (scopus_sources = ∅ ->
      forall e, e ∈ df_enhanced -> e_is_scopus_indexed e = false)
  /\ (forall i wid b e,
        works_details !! i = Some (wid, b) -> body_truth b = false ->
        df_enhanced !! i = Some e -> ~ e ∈ df_strict).
Proof.
  intros Hinr works_details df_strict.
  pose proof (enhance_all_dataset_rows set_iter scopus_sources scimago_data
                api st df_all df_enhanced) as Hrows.
  split; [unfold df_strict; rewrite create_strict_dataset_filter;
          apply sublist_filter|].
  split; [|split].
  - intros e (Hin & Hreg & q & Hq & Hlab)%elem_of_create_strict_dataset.
    split; [by exists q|]. split; [by destruct Hreg|].
    destruct (Hrows e Hinr Hin)
      as (orig & Horig & [->|(wid & d & w & Hentry & Hread & ->)]); [done|].
    by exists orig, wid, d, w.
  - intros -> e Hin.
    destruct (Hrows e Hinr Hin)
      as (orig & Horig & [->|(wid & d & w & Hentry & Hread & ->)]); [done|].
    cbn [coerce_numeric enriched_row e_is_scopus_indexed].
    unfold is_scopus_indexed. by rewrite bool_decide_eq_true_2.
  - intros i wid b e Hentry Hfalsy He
      (_ & _ & q & Hq & _)%elem_of_create_strict_dataset.
    destruct (enhance_all_dataset_absent_row _ _ _ _ _ _ _ _ _ _ Hinr Hentry Hfalsy)
      as (orig & _ & He').
    rewrite He' in He. inversion He; subst. done.
Qed.

Lemma create_strict_dataset_of_enhanced_witness :
  let df_all := [Fixtures.raw "W1" 2022; Fixtures.raw "W1" 2022] in
  exists df_enhanced,
    (enhance_all_dataset Fixtures.forward ∅ ∅ Fixtures.flaky_api
                         Fixtures.empty_fetcher df_all).1 = inr df_enhanced /\
    create_strict_dataset ∅ df_enhanced "Q3" `sublist_of` df_enhanced /\
    forall e, e ∈ df_enhanced -> e_is_scopus_indexed e = false.
Proof.
  intros df_all.
  eexists. split; [vm_compute; reflexivity|].
  match goal with
  | |- create_strict_dataset _ ?t _ `sublist_of` _ /\ _ =>
      destruct (create_strict_dataset_of_enhanced Fixtures.forward ∅ ∅
                  Fixtures.flaky_api Fixtures.empty_fetcher df_all t "Q3")
        as (Hsub & _ & Hflag & _); [vm_compute; reflexivity|]
  end.
  split; [exact Hsub|]. by apply Hflag.
Defined.

(** X21. Against a registry loaded from a file, a list of identifiers is
    reported as indexed exactly when one of them has a normal form of
    eight characters shared with a value present in one of the columns
    ISSN, EISSN, Issn or issn of the file; with the file missing or
    unreadable nothing is ever reported as indexed. *)
Theorem is_scopus_indexed_loaded (df : list (string * list cell))
    (source_issn_list : list cell) :
  (is_scopus_indexed (load_scopus_sources (FileFrame df)) source_issn_list = true
   <-> exists x col vals c v,
         x ∈ source_issn_list /\ col ∈ scopus_columns /\
         assoc col df = Some vals /\ c ∈ vals /\ cell_str c = Some v /\
         normalize_issn x = normalize_issn (CStr v) /\
         String.length (normalize_issn x) = 8)
  /\ is_scopus_indexed (load_scopus_sources FileMissing) source_issn_list = false
  /\ is_scopus_indexed (load_scopus_sources FileUnreadable) source_issn_list = false.
Proof.
  split; [|done]. rewrite is_scopus_indexed_spec. split.
  - intros (x & Hx & (col & vals & c & v & Hcol & Hdf & Hc & Hv & Hn & Hlen)%elem_of_load_scopus_sources).
    by exists x, col, vals, c, v.
  - intros (x & col & vals & c & v & Hx & Hcol & Hdf & Hc & Hv & Hn & Hlen).
    exists x. split; [done|]. apply elem_of_load_scopus_sources.
    exists col, vals, c, v. by rewrite <- Hn.
Qed.
